(** * Batched matrix multiplication: [kernels/portable/cpu/op_bmm.cpp]

    A shallow embedding of [bmm_out] and of the three helpers it is made of
    ([resize_out_tensor], [check_bmm_out_args], [bmm_kernel]), followed by the
    properties of the operator.

    Conventions.
    - A tensor is a record: element type tag, sizes, flat row-major storage
      and the resize capability of its storage.
    - A failed [ET_CHECK_MSG] ends the call: [Aborted], with the check that
      failed and the state [out] is in at that moment.
    - Behaviour the C++ source leaves undefined (an access outside a buffer,
      a signed overflow of an index, a dimension index outside a tensor's
      rank) is [None] in the helpers and [Undefined] in the outcome. *)

From Stdlib Require Import ZArith Lia Floats.SpecFloat.
From stdpp Require Import base tactics option list numbers.

Local Open Scope Z_scope.

(** ** Element types *)

(** Modelled from the spec: the enumeration [ScalarType] is declared in the
    runtime headers, not in this file.  The spec names the supported real
    kinds (32-bit float, 64-bit float and the integer kinds of "all real
    types"); the remaining tags stand for every element type outside that
    enumeration. *)
Inductive ScalarType : Type :=
  | Byte | Char | Short | Int | Long | Half | Float | Double
  | ComplexHalf | ComplexFloat | ComplexDouble | Bool.

#[global] Instance ScalarType_eq_dec : EqDecision ScalarType.
Proof. solve_decision. Defined.

(** The C++ types the kernel template is instantiated at. *)
Inductive CType : Type :=
  | uint8_t | int8_t | int16_t | int32_t | int64_t | float_t | double_t.

#[global] Instance CType_eq_dec : EqDecision CType.
Proof. solve_decision. Defined.

(** Modelled from the spec: the macro [ET_FORALL_REAL_TYPES] is defined in
    the runtime headers.  It applies its argument to every pair (C++ type,
    element type tag) of the supported real kinds, in this order. *)
Definition ET_FORALL_REAL_TYPES : list (CType * ScalarType) :=
  [ (uint8_t, Byte); (int8_t, Char); (int16_t, Short); (int32_t, Int);
    (int64_t, Long); (float_t, Float); (double_t, Double) ].

(** The value held by one element slot of a buffer. *)
Inductive scalar : Type :=
  | IntVal (z : Z)
  | FloatVal (f : spec_float).

(** Reading a slot at an integer type, resp. at a floating type.  A slot of
    the other kind would be a reinterpretation of its bytes, which this
    model does not describe; it cannot arise when the element type tag of a
    tensor describes its storage ([has_ctype] below). *)
Definition as_int (v : scalar) : Z :=
  match v with IntVal z => z | FloatVal _ => 0 end.
Definition as_float (v : scalar) : spec_float :=
  match v with FloatVal f => f | IntVal _ => S754_zero false end.

(** Native arithmetic.  The spec leaves overflow to the arithmetic of the
    element type: two's complement wrap-around at the width of the integer
    types (for the types narrower than [int] this is the conversion of the
    promoted result back to the type), IEEE 754 binary32 and binary64,
    rounding to nearest even, for the floating types. *)
Definition wrap_unsigned (w : Z) (z : Z) : Z := z mod 2 ^ w.
Definition wrap_signed (w : Z) (z : Z) : Z :=
  (z + 2 ^ (w - 1)) mod 2 ^ w - 2 ^ (w - 1).

Definition int_wrap (c : CType) (z : Z) : Z :=
  match c with
  | uint8_t => wrap_unsigned 8 z
  | int8_t => wrap_signed 8 z
  | int16_t => wrap_signed 16 z
  | int32_t => wrap_signed 32 z
  | int64_t => wrap_signed 64 z
  | float_t | double_t => z
  end.

Definition is_floating (c : CType) : bool :=
  match c with float_t | double_t => true | _ => false end.

Definition float_prec (c : CType) : Z :=
  match c with float_t => 24 | _ => 53 end.
Definition float_emax (c : CType) : Z :=
  match c with float_t => 128 | _ => 1024 end.

(** [CTYPE sum(0)] *)
Definition c_zero (c : CType) : scalar :=
  if is_floating c then FloatVal (S754_zero false) else IntVal 0.

(** [a + b] at type [c] *)
Definition c_add (c : CType) (a b : scalar) : scalar :=
  if is_floating c
  then FloatVal (SFadd (float_prec c) (float_emax c) (as_float a) (as_float b))
  else IntVal (int_wrap c (as_int a + as_int b)).

(** [a * b] at type [c] *)
Definition c_mul (c : CType) (a b : scalar) : scalar :=
  if is_floating c
  then FloatVal (SFmul (float_prec c) (float_emax c) (as_float a) (as_float b))
  else IntVal (int_wrap c (as_int a * as_int b)).

(** A slot holds a value of type [c]. *)
Definition has_ctype (c : CType) (v : scalar) : Prop :=
  match v with
  | IntVal z => is_floating c = false ∧ int_wrap c z = z
  | FloatVal _ => is_floating c = true
  end.

(** ** Tensors *)

(** Modelled from the spec: the class [Tensor] is declared in the runtime
    headers.  The spec describes it as an element type, a shape and a flat
    row-major buffer whose element count is the product of the shape, with
    a capability [resize(new_shape) -> Result]: here [resize_storage], which
    fails ([None]) or delivers the storage of the new shape, whose contents
    are whatever the capability provides (no prior contents are promised). *)
Record Tensor : Type := mkTensor {
  scalar_type : ScalarType;
  sizes : list Z;
  data : list scalar;
  resize_storage : list Z → option (list scalar)
}.

(** [t.dim()] *)
Definition dim (t : Tensor) : Z := Z.of_nat (length (sizes t)).

(** Modelled from the spec: the accessor [Tensor::size] is declared in the
    runtime headers.  The spec gives a tensor [shape(dim)], the extent of
    dimension [dim]: this is [t.size(d)].  It says nothing of a [d]
    outside the dimensions of the tensor, and there the accessor has no
    value here. *)
Definition size (t : Tensor) (d : Z) : option Z :=
  if decide (0 ≤ d) then sizes t !! Z.to_nat d else None.

(** [t.numel()]: the product of the sizes. *)
Definition numel_of (s : list Z) : Z := foldr Z.mul 1 s.
Definition numel (t : Tensor) : Z := numel_of (sizes t).

(** The same tensor handle with other storage contents. *)
Definition with_data (t : Tensor) (d : list scalar) : Tensor :=
  mkTensor (scalar_type t) (sizes t) d (resize_storage t).

(** ** Buffers and loops *)

(** [buf[i]] *)
Definition load (buf : list scalar) (i : Z) : option scalar :=
  if decide (0 ≤ i) then buf !! Z.to_nat i else None.

(** [buf[i] = v] *)
Definition store (buf : list scalar) (i : Z) (v : scalar)
  : option (list scalar) :=
  if decide (0 ≤ i < Z.of_nat (length buf))
  then Some (<[Z.to_nat i := v]> buf) else None.

(** [for (i = i0; i < i0 + count; ++i) body], threading the state [s]. *)
Fixpoint for_loop {St : Type} (count : nat) (i : Z)
    (body : Z → St → option St) (s : St) : option St :=
  match count with
  | O => Some s
  | S count' =>
      match body i s with
      | Some s' => for_loop count' (i + 1) body s'
      | None => None
      end
  end.

(** Signed 64-bit multiplication of indices; an overflow is undefined. *)
Definition int64_min : Z := - 2 ^ 63.
Definition int64_max : Z := 2 ^ 63 - 1.
Definition int_max : Z := 2 ^ 31 - 1.

Definition mul64 (a b : Z) : option Z :=
  let r := a * b in
  if decide (int64_min ≤ r ≤ int64_max) then Some r else None.

(** ** The numeric kernel *)

Section Kernel.
Variable CTYPE : CType.

(** Modelled from the spec: [vec_matmul] is defined in
    [kernels/portable/cpu/vec_ops.h].  The spec gives the standard dense
    accumulation: entry [(i, j)] of the [m]x[p] result is the sum over
    [k] in [[0, n)] of [x[i][k] * y[k][j]], accumulated from zero in the
    element's own type, all three matrices row-major.  [z], [x], [y] are
    pointers into buffers: a buffer and an offset. *)
Definition dot (x : list scalar) (xo : Z) (y : list scalar) (yo : Z)
    (n p i j : Z) : option scalar :=
  for_loop (Z.to_nat n) 0
    (fun k sum =>
       xv ← load x (xo + (i * n + k));
       yv ← load y (yo + (k * p + j));
       Some (c_add CTYPE sum (c_mul CTYPE xv yv)))
    (c_zero CTYPE).

Definition vec_matmul (z : list scalar) (zo : Z)
    (x : list scalar) (xo : Z) (y : list scalar) (yo : Z)
    (m n p : Z) : option (list scalar) :=
  for_loop (Z.to_nat m) 0
    (fun i z =>
       for_loop (Z.to_nat p) 0
         (fun j z =>
            sum ← dot x xo y yo n p i j;
            store z (zo + (i * p + j)) sum)
         z)
    z.

(** One iteration of the batch loop of [bmm_kernel], with the [++i] that
    ends it ([i] is an [int]). *)
Definition bmm_batch_step (x_data y_data : list scalar) (m n p : Z)
    (i : Z) (z_data : list scalar) : option (list scalar) :=
  im ← mul64 i m;
  xo ← mul64 im n;
  i_n ← mul64 i n;
  yo ← mul64 i_n p;
  zo ← mul64 im p;
  z' ← vec_matmul z_data zo x_data xo y_data yo m n p;
  if decide (i + 1 ≤ int_max) then Some z' else None.

(** [bmm_kernel<CTYPE>(self, mat2, out)] *)
Definition bmm_kernel (self mat2 out : Tensor) : option Tensor :=
  if decide (numel self = 0 ∨ numel mat2 = 0 ∨ numel out = 0)
  then Some out
  else
    batch_size ← size self 0;
    m ← size self 1;
    n ← size self 2;
    p ← size mat2 2;
    z ← for_loop (Z.to_nat batch_size) 0
           (bmm_batch_step (data self) (data mat2) m n p) (data out);
    Some (with_data out z).
End Kernel.

(** ** Outcomes of a call *)

(** The checks of the operator, by the line of [op_bmm.cpp] they are on. *)
Inductive Check : Type :=
  | SelfMat2Dim      (* 32: self.dim() == mat2.dim() *)
  | SelfOutDim       (* 37: self.dim() == out.dim() *)
  | SelfDimNot3      (* 42: self.dim() == 3 *)
  | BatchNegative    (* 44: self.size(0) >= 0 *)
  | SelfMat2Batch    (* 46: self.size(0) == mat2.size(0) *)
  | SelfOutBatch     (* 51: self.size(0) == out.size(0) *)
  | Mat2OutCols      (* 57: mat2.size(2) == out.size(2) *)
  | SelfOutRows      (* 62: self.size(1) == out.size(1) *)
  | ResizeFailed     (* 110: err == Error::Ok *)
  | DtypeMismatch    (* 125: ET_CHECK_SAME_DTYPE3 *)
  | UnhandledDtype.  (* 135: default case of the switch *)

#[global] Instance Check_eq_dec : EqDecision Check.
Proof. solve_decision. Defined.

(** The checks of the validator. *)
Definition validator_checks : list Check :=
  [SelfMat2Dim; SelfOutDim; SelfDimNot3; BatchNegative; SelfMat2Batch;
   SelfOutBatch; Mat2OutCols; SelfOutRows].

(** A step of the call returns, or a check fails and the call ends with
    [out] in the given state, or the source gives the step no meaning. *)
Inductive Outcome (A : Type) : Type :=
  | Returned (a : A)
  | Aborted (c : Check) (out : Tensor)
  | Undefined.
Arguments Returned {A} a.
Arguments Aborted {A} c out.
Arguments Undefined {A}.

#[global] Instance Outcome_ret : MRet Outcome := fun A a => Returned a.
#[global] Instance Outcome_bind : MBind Outcome := fun A B f o =>
  match o with
  | Returned a => f a
  | Aborted c out => Aborted c out
  | Undefined => Undefined
  end.

(** A value the source computes when it is defined. *)
Definition defined {A : Type} (o : option A) : Outcome A :=
  match o with Some a => Returned a | None => Undefined end.

(** Modelled from the spec: the macro [ET_CHECK_MSG] is defined in the
    runtime headers.  A failed check is a terminal failure of the call,
    surfaced to the caller at once; [out] is the state of the output tensor
    at that moment. *)
Definition ET_CHECK_MSG (cond : bool) (c : Check) (out : Tensor)
  : Outcome unit :=
  if cond then Returned tt else Aborted c out.

(** Modelled from the spec: the macro [ET_CHECK_SAME_DTYPE3] is defined in
    the runtime headers.  It checks that the three tensors have one element
    type. *)
Definition ET_CHECK_SAME_DTYPE3 (a b c : Tensor) (out : Tensor)
  : Outcome unit :=
  ET_CHECK_MSG
    (bool_decide (scalar_type a = scalar_type b ∧
                  scalar_type b = scalar_type c))
    DtypeMismatch out.

(** ** The validator *)

(** [check_bmm_out_args(self, mat2, out)] *)
Definition check_bmm_out_args (self mat2 out : Tensor) : Outcome unit :=
  ET_CHECK_MSG (bool_decide (dim self = dim mat2)) SelfMat2Dim out;;
  ET_CHECK_MSG (bool_decide (dim self = dim out)) SelfOutDim out;;
  ET_CHECK_MSG (bool_decide (dim self = 3)) SelfDimNot3 out;;
  self0 ← defined (size self 0);
  ET_CHECK_MSG (bool_decide (0 ≤ self0)) BatchNegative out;;
  mat2_0 ← defined (size mat2 0);
  ET_CHECK_MSG (bool_decide (self0 = mat2_0)) SelfMat2Batch out;;
  out0 ← defined (size out 0);
  ET_CHECK_MSG (bool_decide (self0 = out0)) SelfOutBatch out;;
  mat2_2 ← defined (size mat2 2);
  out2 ← defined (size out 2);
  ET_CHECK_MSG (bool_decide (mat2_2 = out2)) Mat2OutCols out;;
  self1 ← defined (size self 1);
  out1 ← defined (size out 1);
  ET_CHECK_MSG (bool_decide (self1 = out1)) SelfOutRows out.

(** ** The resolver *)

(** Modelled from the spec: the constant [kTensorDimensionLimit] is
    declared in the runtime headers; 16 is the runtime's value.  The
    operator only accepts tensors of rank 3, and every limit of at least 3
    gives the same behaviour on them. *)
Definition kTensorDimensionLimit : Z := 16.

(** The stack array [expected_output_size] is a [list (option Z)]: a slot
    is [None] until it is written. *)
Definition array_set (arr : list (option Z)) (i : Z) (v : Z)
  : option (list (option Z)) :=
  if decide (0 ≤ i < Z.of_nat (length arr))
  then Some (<[Z.to_nat i := Some v]> arr) else None.

(** [ArrayRef{arr, n}], read by the callee: the first [n] slots. *)
Definition array_ref (arr : list (option Z)) (n : Z) : option (list Z) :=
  if decide (n ≤ Z.of_nat (length arr))
  then mapM id (take (Z.to_nat n) arr) else None.

(** [size_t] arithmetic *)
Definition size_t_wrap (z : Z) : Z := z mod 2 ^ 64.

(** [for (size_t i = 0; i < m_dim; i++) expected_output_size[i] =
    self.size(i);] from [i] on.  The loop ends, or leaves the array or the
    dimensions of [self], within [length arr + 1] iterations
    ([copy_leading_sizes_fuel]). *)
Fixpoint copy_leading_sizes (fuel : nat) (self : Tensor) (m_dim : Z)
    (i : Z) (arr : list (option Z)) : option (list (option Z)) :=
  if decide (i < m_dim) then
    match fuel with
    | O => None
    | S fuel' =>
        v ← size self i;
        arr' ← array_set arr i v;
        copy_leading_sizes fuel' self m_dim (i + 1) arr'
    end
  else Some arr.

Inductive Error : Type := Ok | ResizeError.

#[global] Instance Error_eq_dec : EqDecision Error.
Proof. solve_decision. Defined.

(** Modelled from the spec: [resize_tensor] is defined in the runtime.  The
    requested shape is compared with the tensor's current shape; when they
    differ the storage is asked to take exactly the requested shape, which
    fails or gives the tensor that shape and the storage delivered. *)
Definition resize_tensor (t : Tensor) (new_sizes : list Z) : Error * Tensor :=
  if decide (sizes t = new_sizes) then (Ok, t)
  else
    match resize_storage t new_sizes with
    | Some buf =>
        (Ok, mkTensor (scalar_type t) new_sizes buf (resize_storage t))
    | None => (ResizeError, t)
    end.

(** [resize_out_tensor(self, mat2, out)] *)
Definition resize_out_tensor (self mat2 out : Tensor) : Outcome Tensor :=
  let expected_output_size : list (option Z) :=
    replicate (Z.to_nat kTensorDimensionLimit) None in
  let m_dim := size_t_wrap (dim self - 2) in
  let n_dim := size_t_wrap (dim self - 1) in
  arr ← defined (copy_leading_sizes (S (Z.to_nat kTensorDimensionLimit))
                   self m_dim 0 expected_output_size);
  self_m ← defined (size self m_dim);
  arr ← defined (array_set arr m_dim self_m);
  mat2_n ← defined (size mat2 n_dim);
  arr ← defined (array_set arr n_dim mat2_n);
  output_size ← defined (array_ref arr (dim out));
  let '(err, out') := resize_tensor out output_size in
  ET_CHECK_MSG (bool_decide (err = Ok)) ResizeFailed out';;
  Returned out'.

(** ** The operator *)

Definition RuntimeContext : Type := unit.

(** The [switch] over [scalar_type]: the first case label that matches. *)
Fixpoint switch_case (cases : list (CType * ScalarType)) (st : ScalarType)
  : option CType :=
  match cases with
  | [] => None
  | (ctype, dtype) :: rest =>
      if decide (st = dtype) then Some ctype else switch_case rest st
  end.

(** [bmm_out(ctx, self, mat2, out)] *)
Definition bmm_out (ctx : RuntimeContext) (self mat2 out : Tensor)
  : Outcome Tensor :=
  out ← resize_out_tensor self mat2 out;
  check_bmm_out_args self mat2 out;;
  ET_CHECK_SAME_DTYPE3 self mat2 out out;;
  let scalar_type := scalar_type self in
  match switch_case ET_FORALL_REAL_TYPES scalar_type with
  | Some ctype => defined (bmm_kernel ctype self mat2 out)
  | None => Aborted UnhandledDtype out
  end.

(** ** The product, as the specification gives it *)

(** [t[i][r][c]] of a rank-3 tensor, row-major. *)
Definition entry (t : Tensor) (i r c : Z) : option scalar :=
  d1 ← size t 1;
  d2 ← size t 2;
  load (data t) ((i * d1 + r) * d2 + c).

Definition elem (t : Tensor) (i r c : Z) : scalar :=
  default (IntVal 0) (entry t i r c).

(** The sum of [term k] for [k] below [n], accumulated from zero in
    increasing [k], in the arithmetic of type [c]. *)
Fixpoint sum_below (c : CType) (n : nat) (term : Z → scalar) : scalar :=
  match n with
  | O => c_zero c
  | S n' => c_add c (sum_below c n' term) (term (Z.of_nat n'))
  end.

(** The sum over [k] in [[0, inner)] of [self[i][row][k] * mat2[i][k][col]]. *)
Definition bmm_entry (c : CType) (self mat2 : Tensor) (inner : Z)
    (i row col : Z) : scalar :=
  sum_below c (Z.to_nat inner)
    (fun k => c_mul c (elem self i row k) (elem mat2 i k col)).

(** The exact sum of [f k] for [k] below [n]. *)
Fixpoint sum_Z (n : nat) (f : Z → Z) : Z :=
  match n with
  | O => 0
  | S n' => sum_Z n' f + f (Z.of_nat n')
  end.

(** A row-major [m]x[p] matrix given by its entries. *)
Definition matrix_of (val : Z → Z → scalar) (m p : Z) : list scalar :=
  concat ((λ i, val i <$> seqZ 0 p) <$> seqZ 0 m).

(** The storage of the product of [self], of sizes [[b; m; n]], and [mat2],
    of sizes [[b; n; p]]. *)
Definition product_data (c : CType) (self mat2 : Tensor) (b m n p : Z)
  : list scalar :=
  concat ((λ i, matrix_of (λ row col, bmm_entry c self mat2 n i row col) m p)
            <$> seqZ 0 b).

(** ** Well-formed tensors *)

(** The sizes are non-negative [int32] values, the storage holds as many
    elements as the product of the sizes, and that count is an [ssize_t]. *)
Definition tensor_ok (t : Tensor) : Prop :=
  Forall (λ s, 0 ≤ s ≤ int_max) (sizes t) ∧
  Z.of_nat (length (data t)) = numel t ∧
  numel t ≤ int64_max.

#[global] Instance tensor_ok_dec t : Decision (tensor_ok t).
Proof. unfold tensor_ok. apply _. Defined.

(** All three tensors have one element type. *)
Definition same_dtype3 (a b c : Tensor) : Prop :=
  scalar_type a = scalar_type b ∧ scalar_type b = scalar_type c.

#[global] Instance same_dtype3_dec a b c : Decision (same_dtype3 a b c).
Proof. unfold same_dtype3. apply _. Defined.

(** The element types of the supported real kinds. *)
Definition supported (st : ScalarType) : Prop :=
  st ∈ ET_FORALL_REAL_TYPES.*2.

#[global] Instance supported_dec st : Decision (supported st).
Proof. unfold supported. apply _. Defined.

(** The slots of [expected_output_size] once the resolver has filled it for
    a [self] of rank 3. *)
Definition filled_sizes (b m p : Z) : list (option Z) :=
  [Some b; Some m; Some p] ++ replicate 13 None.

(** ** Tensors used in the examples *)

(** A storage that cannot be resized, and one that reallocates to any shape
    and delivers the given fill value. *)
Definition no_resize : list Z → option (list scalar) := λ _, None.
Definition realloc_with (v : scalar) : list Z → option (list scalar) :=
  λ s, Some (replicate (Z.to_nat (numel_of s)) v).

(** The integer [z] as a value of type [c]. *)
Definition of_Z (c : CType) (z : Z) : scalar :=
  if is_floating c
  then FloatVal (binary_normalize (float_prec c) (float_emax c) z 0 false)
  else IntVal z.

(** The concrete scenario of the specification, at element type [st] with
    C++ type [c]: [self] is two copies of [[1,2,3],[4,5,6]], [mat2] two
    copies of [[1,0],[0,1],[1,1]], and [out] is an empty rank-3 tensor whose
    storage can be reallocated. *)
Definition scenario_self (c : CType) (st : ScalarType) : Tensor :=
  mkTensor st [2; 2; 3]
    (of_Z c <$> [1; 2; 3; 4; 5; 6; 1; 2; 3; 4; 5; 6]) no_resize.
Definition scenario_mat2 (c : CType) (st : ScalarType) : Tensor :=
  mkTensor st [2; 3; 2]
    (of_Z c <$> [1; 0; 0; 1; 1; 1; 1; 0; 0; 1; 1; 1]) no_resize.
Definition scenario_out (c : CType) (st : ScalarType) : Tensor :=
  mkTensor st [0; 0; 0] [] (realloc_with (of_Z c 0)).

(** Inputs whose shared inner dimension is zero, and an [out] of the
    expected shape that holds a 7. *)
Definition zero_inner_self : Tensor := mkTensor Int [1; 1; 0] [] no_resize.
Definition zero_inner_mat2 : Tensor := mkTensor Int [1; 0; 1] [] no_resize.
Definition out_holding (z : Z) : Tensor :=
  mkTensor Int [1; 1; 1] [IntVal z] no_resize.

(** Inputs whose inner dimensions differ: [self] is 1x2, [mat2] is 3x1. *)
Definition inner2_self : Tensor :=
  mkTensor Int [1; 1; 2] [IntVal 2; IntVal 3] no_resize.
Definition inner3_mat2 : Tensor :=
  mkTensor Int [1; 3; 1] [IntVal 5; IntVal 7; IntVal 11] no_resize.

(** 1x1x1 inputs, and outputs of rank 2: a resizable 5x5 one, what the
    resolver makes of it, and a 1x1 one that cannot be resized. *)
Definition unit_tensor : Tensor := mkTensor Int [1; 1; 1] [IntVal 1] no_resize.
Definition rank2_out : Tensor :=
  mkTensor Int [5; 5] (replicate 25 (IntVal 0)) (realloc_with (IntVal 0)).
Definition rank2_resized : Tensor :=
  mkTensor Int [1; 1] [IntVal 0] (realloc_with (IntVal 0)).
Definition rank2_unit_out : Tensor :=
  mkTensor Int [1; 1] [IntVal 0] no_resize.

(** An output of another element type than [unit_tensor], a tensor of an
    unsupported element type, and a [mat2] of two 1x1 matrices. *)
Definition float_out : Tensor :=
  mkTensor Float [1; 1; 1] [of_Z float_t 7] no_resize.
Definition bool_tensor : Tensor :=
  mkTensor Bool [1; 1; 1] [IntVal 1] no_resize.
Definition batch2_mat2 : Tensor :=
  mkTensor Int [2; 1; 1] [IntVal 1; IntVal 1] no_resize.



(** The output of the scenario at [int32_t] after the resolver, and after
    the call. *)
Definition scenario_resized : Tensor :=
  mkTensor Int [2; 2; 2] (replicate 8 (IntVal 0)) (realloc_with (IntVal 0)).
Definition scenario_result : Tensor :=
  mkTensor Int [2; 2; 2] (IntVal <$> [4; 5; 10; 11; 4; 5; 10; 11])
    (realloc_with (IntVal 0)).

(** ** Further definitions *)

(** What the kernel computes for entry [(i, row, col)] from the buffers it
    is given: it takes [m] and [n] from [self] and [p] from [mat2], and
    reads [y] as if it held [n] rows of [p] elements per batch. *)
Definition kernel_entry (c : CType) (x y : list scalar) (m n p : Z)
    (i row col : Z) : scalar :=
  sum_below c (Z.to_nat n)
    (fun k => c_mul c (default (IntVal 0) (load x ((i * m + row) * n + k)))
                      (default (IntVal 0) (load y ((i * n + k) * p + col)))).

(** The storage the kernel writes from those buffers. *)
Definition kernel_data (c : CType) (x y : list scalar) (b m n p : Z)
  : list scalar :=
  concat ((λ i, matrix_of (λ row col, kernel_entry c x y m n p i row col) m p)
            <$> seqZ 0 b).

(** An output whose storage is longer than its shape needs, inputs of two
    1x1 matrices, and a [mat2] of two 2x1 matrices. *)
Definition long_out : Tensor :=
  mkTensor Int [1; 1; 1] [IntVal 7; IntVal 8; IntVal 9] no_resize.
Definition ones_self : Tensor :=
  mkTensor Int [2; 1; 1] [IntVal 1; IntVal 1] no_resize.
Definition tall_mat2 : Tensor :=
  mkTensor Int [2; 2; 1] [IntVal 10; IntVal 20; IntVal 30; IntVal 40]
    no_resize.
Definition pair_out (a b : Z) : Tensor :=
  mkTensor Int [2; 1; 1] [IntVal a; IntVal b] no_resize.
(** Inputs whose inner dimension is larger in [self]: 1x3 and 2x1. *)
Definition inner3_self : Tensor :=
  mkTensor Int [1; 1; 3] [IntVal 2; IntVal 3; IntVal 4] no_resize.
Definition inner2_mat2 : Tensor :=
  mkTensor Int [1; 2; 1] [IntVal 5; IntVal 7] no_resize.

(** Tensors of rank 4, one of them resizable, and a tensor of rank 1. *)
Definition rank4_tensor : Tensor :=
  mkTensor Int [2; 1; 1; 1] [IntVal 1; IntVal 1] no_resize.
Definition rank4_out : Tensor :=
  mkTensor Int [1; 1; 1; 1] [IntVal 0] (realloc_with (IntVal 0)).
Definition rank4_resized : Tensor :=
  mkTensor Int [2; 1; 1; 1] [IntVal 0; IntVal 0] (realloc_with (IntVal 0)).
Definition rank1_tensor : Tensor := mkTensor Int [1] [IntVal 1] no_resize.

(** ** The values of the integer types *)

(** The least and the greatest value of an integer type (0 at the floating
    types, which have no such bounds here). *)
Definition int_lowest (c : CType) : Z :=
  match c with
  | uint8_t => 0
  | int8_t => - 2 ^ 7
  | int16_t => - 2 ^ 15
  | int32_t => - 2 ^ 31
  | int64_t => - 2 ^ 63
  | float_t | double_t => 0
  end.
Definition int_highest (c : CType) : Z :=
  match c with
  | uint8_t => 2 ^ 8 - 1
  | int8_t => 2 ^ 7 - 1
  | int16_t => 2 ^ 15 - 1
  | int32_t => 2 ^ 31 - 1
  | int64_t => 2 ^ 63 - 1
  | float_t | double_t => 0
  end.

(** The integer [z] is a value of type [c]: computing it does not
    overflow. *)
Definition representable (c : CType) (z : Z) : Prop :=
  int_lowest c ≤ z ≤ int_highest c.

(** ** The size accessor outside the dimensions *)

Section SizeOutOfRange.

(** [Tensor::size] is declared in the runtime headers, and [size] gives it
    no value for a [d] outside the dimensions of [t].  Here what the
    accessor does there is a parameter: it returns some value, or it ends
    the call, or it has no defined behaviour. *)
Variable size_oob : Tensor → Z → Outcome Z.

(** [t.size(d)] *)
Definition size_at (t : Tensor) (d : Z) : Outcome Z :=
  match size t d with
  | Some v => Returned v
  | None => size_oob t d
  end.

(** The copy loop of [resize_out_tensor], as [copy_leading_sizes]. *)
Fixpoint copy_leading_sizes_at (fuel : nat) (self : Tensor) (m_dim : Z)
    (i : Z) (arr : list (option Z)) : Outcome (list (option Z)) :=
  if decide (i < m_dim) then
    match fuel with
    | O => Undefined
    | S fuel' =>
        v ← size_at self i;
        arr' ← defined (array_set arr i v);
        copy_leading_sizes_at fuel' self m_dim (i + 1) arr'
    end
  else Returned arr.

(** [resize_out_tensor(self, mat2, out)] *)
Definition resize_out_tensor_at (self mat2 out : Tensor) : Outcome Tensor :=
  let expected_output_size : list (option Z) :=
    replicate (Z.to_nat kTensorDimensionLimit) None in
  let m_dim := size_t_wrap (dim self - 2) in
  let n_dim := size_t_wrap (dim self - 1) in
  arr ← copy_leading_sizes_at (S (Z.to_nat kTensorDimensionLimit))
          self m_dim 0 expected_output_size;
  self_m ← size_at self m_dim;
  arr ← defined (array_set arr m_dim self_m);
  mat2_n ← size_at mat2 n_dim;
  arr ← defined (array_set arr n_dim mat2_n);
  output_size ← defined (array_ref arr (dim out));
  let '(err, out') := resize_tensor out output_size in
  ET_CHECK_MSG (bool_decide (err = Ok)) ResizeFailed out';;
  Returned out'.

(** [bmm_out(ctx, self, mat2, out)] *)
Definition bmm_out_at (ctx : RuntimeContext) (self mat2 out : Tensor)
  : Outcome Tensor :=
  out ← resize_out_tensor_at self mat2 out;
  check_bmm_out_args self mat2 out;;
  ET_CHECK_SAME_DTYPE3 self mat2 out out;;
  let scalar_type := scalar_type self in
  match switch_case ET_FORALL_REAL_TYPES scalar_type with
  | Some ctype => defined (bmm_kernel ctype self mat2 out)
  | None => Aborted UnhandledDtype out
  end.

End SizeOutOfRange.

(** An accessor that returns 0 outside the dimensions. *)
Definition size_oob_zero (t : Tensor) (d : Z) : Outcome Z := Returned 0.
(** An accessor without a defined behaviour outside the dimensions. *)
Definition size_oob_undefined (t : Tensor) (d : Z) : Outcome Z := Undefined.

(** * Properties *)

(** ** Loops *)

Section Loops.
Context {St : Type}.
Implicit Types (body : Z → St → option St) (s : St).

Lemma for_loop_succ count i body s :
  for_loop (S count) i body s =
  for_loop count i body s ≫= body (i + Z.of_nat count).
Proof.
  revert i s. induction count as [|count IH]; intros i s.
  - cbn. rewrite Z.add_0_r. by destruct (body i s).
  - change (for_loop (S (S count)) i body s)
      with (match body i s with
            | Some s' => for_loop (S count) (i + 1) body s'
            | None => None end).
    destruct (body i s) as [s'|] eqn:Hb.
    + rewrite IH. cbn [for_loop]. rewrite Hb.
      by replace (i + 1 + Z.of_nat count) with (i + Z.of_nat (S count))
        by lia.
    + cbn [for_loop]. by rewrite Hb.
Qed.

(** A property every iteration preserves holds when the loop ends. *)
Lemma for_loop_preserves (P : St → Prop) count i body s s' :
  (∀ j t t', body j t = Some t' → P t → P t') →
  for_loop count i body s = Some s' → P s → P s'.
Proof.
  intros Hbody. revert i s.
  induction count as [|count IH]; intros i s Hloop Hs.
  - by simplify_eq/=.
  - cbn [for_loop] in Hloop. destruct (body i s) as [t|] eqn:Hb; [|done].
    eapply IH; [done|]. by eapply Hbody.
Qed.
End Loops.

(** ** Lists as buffers *)

Section Fill.
Context {A : Type}.
Implicit Types (pre old post : list A).

Lemma concat_fmap_singleton {B} (f : B → A) (l : list B) :
  concat ((λ x, [f x]) <$> l) = f <$> l.
Proof. induction l as [|x l IH]; [done|]. cbn. by rewrite IH. Qed.

Lemma length_concat_uniform (chunk : nat) (ls : list (list A)) :
  Forall (λ l, length l = chunk) ls →
  length (concat ls) = (length ls * chunk)%nat.
Proof.
  induction 1 as [|l ls Hl _ IH]; [done|].
  cbn. rewrite length_app, IH, Hl. done.
Qed.

Lemma lookup_concat_chunks (chunk : nat) (ls : list (list A)) i j row v :
  Forall (λ l, length l = chunk) ls →
  ls !! i = Some row → row !! j = Some v →
  concat ls !! (i * chunk + j)%nat = Some v.
Proof.
  intros Hall. revert i. induction Hall as [|l ls Hl _ IH]; intros i Hi Hj.
  - done.
  - destruct i as [|i]; cbn in *.
    + simplify_eq. by apply lookup_app_l_Some.
    + rewrite lookup_app_r by lia.
      replace (chunk + i * chunk + j - length l)%nat
        with (i * chunk + j)%nat by lia.
      by apply IH.
Qed.

Lemma lookup_fmap_seqZ (f : Z → A) (len i : Z) :
  0 ≤ i < len → (f <$> seqZ 0 len) !! Z.to_nat i = Some (f i).
Proof.
  intros H. rewrite list_lookup_fmap.
  rewrite (proj2 (lookup_seqZ 0 len (Z.to_nat i) i)); [done|lia].
Qed.

(** A loop whose [i]-th iteration overwrites the [i]-th chunk of a region
    of a buffer overwrites the region with the chunks in order, and
    leaves what is before and after the region. *)
Lemma for_loop_fill (chunk : nat) (off : Z)
    (body : Z → list A → option (list A)) (new : Z → list A) count i0 :
  (∀ i, i0 ≤ i < i0 + Z.of_nat count → length (new i) = chunk) →
  (∀ i pre old post,
      i0 ≤ i < i0 + Z.of_nat count →
      Z.of_nat (length pre) = off + i * Z.of_nat chunk →
      length old = chunk →
      body i (pre ++ old ++ post) = Some (pre ++ new i ++ post)) →
  ∀ pre old post,
    Z.of_nat (length pre) = off + i0 * Z.of_nat chunk →
    length old = (count * chunk)%nat →
    for_loop count i0 body (pre ++ old ++ post) =
    Some (pre ++ concat (new <$> seqZ i0 (Z.of_nat count)) ++ post).
Proof.
  revert i0. induction count as [|count IH];
    intros i0 Hnew Hbody pre old post Hpre Hold.
  - destruct old; [done|discriminate].
  - rewrite seqZ_cons by lia. cbn [for_loop fmap list_fmap concat].
    rewrite <- (take_drop chunk old), <- (assoc_L (++) (take chunk old)).
    rewrite Hbody; [|lia|done|rewrite length_take; lia].
    rewrite (assoc_L (++) pre (new i0)).
    rewrite IH.
    + replace (Z.pred (Z.of_nat (S count))) with (Z.of_nat count) by lia.
      f_equal. by rewrite <- !(assoc_L (++)).
    + intros. apply Hnew. lia.
    + intros. apply Hbody; [lia|done..].
    + rewrite length_app, Nat2Z.inj_add, Hpre, Hnew by lia. lia.
    + rewrite length_drop. lia.
Qed.
End Fill.

Lemma load_in_range buf i :
  0 ≤ i < Z.of_nat (length buf) → is_Some (load buf i).
Proof.
  intros H. unfold load. rewrite decide_True by lia.
  apply lookup_lt_is_Some. lia.
Qed.

Lemma store_fill (pre old post : list scalar) (i : Z) v :
  Z.of_nat (length pre) = i → length old = 1%nat →
  store (pre ++ old ++ post) i v = Some (pre ++ [v] ++ post).
Proof.
  intros Hi Hold. destruct old as [|o [|??]]; try discriminate.
  unfold store. rewrite decide_True.
  - f_equal. rewrite <- Hi, Nat2Z.id.
    rewrite insert_app_r_alt by lia. by rewrite Nat.sub_diag.
  - rewrite length_app. cbn. lia.
Qed.

Lemma store_length buf i v buf' :
  store buf i v = Some buf' → length buf' = length buf.
Proof.
  unfold store. case_decide; [|done]. intros [= <-]. apply length_insert.
Qed.

Lemma mul64_in_range a b :
  int64_min ≤ a * b ≤ int64_max → mul64 a b = Some (a * b).
Proof. intros H. unfold mul64. by rewrite decide_True. Qed.

Lemma flat_index_bound b m n i r k :
  0 ≤ i < b → 0 ≤ r < m → 0 ≤ k < n →
  0 ≤ (i * m + r) * n + k < b * m * n.
Proof.
  intros Hi Hr Hk.
  assert (0 ≤ i * m + r ∧ i * m + r + 1 ≤ b * m) as [H1 H2] by nia.
  nia.
Qed.

(** ** Native integer arithmetic *)

Lemma wrap_unsigned_add w a b :
  wrap_unsigned w (wrap_unsigned w a + wrap_unsigned w b)
  = wrap_unsigned w (a + b).
Proof. unfold wrap_unsigned. by rewrite <- Zplus_mod. Qed.

Lemma wrap_signed_add w a b :
  wrap_signed w (wrap_signed w a + wrap_signed w b) = wrap_signed w (a + b).
Proof.
  unfold wrap_signed. f_equal.
  set (h := 2 ^ (w - 1)). set (M := 2 ^ w).
  replace ((a + h) mod M - h + ((b + h) mod M - h) + h)
    with ((a + h) mod M + ((b + h) mod M - h)) by lia.
  rewrite Zplus_mod_idemp_l.
  replace (a + h + ((b + h) mod M - h)) with ((b + h) mod M + a) by lia.
  rewrite Zplus_mod_idemp_l. f_equal. lia.
Qed.

Lemma int_wrap_add c a b :
  int_wrap c (int_wrap c a + int_wrap c b) = int_wrap c (a + b).
Proof.
  destruct c; cbn [int_wrap];
    auto using wrap_unsigned_add, wrap_signed_add.
Qed.

Lemma int_wrap_idemp c z : int_wrap c (int_wrap c z) = int_wrap c z.
Proof.
  rewrite <- (Z.add_0_r (int_wrap c z)) at 1.
  replace 0 with (int_wrap c 0) at 1 by (by destruct c).
  by rewrite int_wrap_add, Z.add_0_r.
Qed.

(** The values the kernel computes are values of its type. *)
Lemma c_zero_has_ctype c : has_ctype c (c_zero c).
Proof. by destruct c. Qed.

Lemma c_add_has_ctype c a b : has_ctype c (c_add c a b).
Proof.
  unfold c_add. destruct (is_floating c) eqn:Hf; [done|].
  split; [done|]. apply int_wrap_idemp.
Qed.

Lemma c_mul_has_ctype c a b : has_ctype c (c_mul c a b).
Proof.
  unfold c_mul. destruct (is_floating c) eqn:Hf; [done|].
  split; [done|]. apply int_wrap_idemp.
Qed.

Lemma sum_below_has_ctype c n term : has_ctype c (sum_below c n term).
Proof.
  destruct n; [apply c_zero_has_ctype|apply c_add_has_ctype].
Qed.

(** At an integer type the accumulated sum is the exact sum, reduced to
    the width of the type. *)
Lemma sum_below_int c n (x y : Z → scalar) :
  is_floating c = false →
  sum_below c n (λ k, c_mul c (x k) (y k)) =
  IntVal (int_wrap c (sum_Z n (λ k, as_int (x k) * as_int (y k)))).
Proof.
  intros Hf. induction n as [|n IH].
  - cbn. unfold c_zero. rewrite Hf. by destruct c.
  - cbn [sum_below sum_Z]. rewrite IH. unfold c_add, c_mul. rewrite Hf.
    cbn [as_int]. by rewrite int_wrap_add.
Qed.

Lemma bmm_entry_int c self mat2 inner i row col :
  is_floating c = false →
  bmm_entry c self mat2 inner i row col =
  IntVal (int_wrap c
            (sum_Z (Z.to_nat inner)
               (λ k, as_int (elem self i row k) * as_int (elem mat2 i k col)))).
Proof. intros Hf. unfold bmm_entry. by apply sum_below_int. Qed.

(** ** Rank-3 tensors *)

Lemma size_rank3 t d0 d1 d2 :
  sizes t = [d0; d1; d2] →
  size t 0 = Some d0 ∧ size t 1 = Some d1 ∧ size t 2 = Some d2.
Proof.
  intros H. unfold size. rewrite H, !decide_True by lia. done.
Qed.

Lemma numel_rank3 t d0 d1 d2 :
  sizes t = [d0; d1; d2] → numel t = d0 * d1 * d2.
Proof. intros H. unfold numel, numel_of. rewrite H. cbn. lia. Qed.

Lemma entry_rank3 t d0 d1 d2 i r c :
  sizes t = [d0; d1; d2] →
  entry t i r c = load (data t) ((i * d1 + r) * d2 + c).
Proof.
  intros H. unfold entry.
  by destruct (size_rank3 _ _ _ _ H) as (_ & -> & ->).
Qed.

Lemma entry_elem t d0 d1 d2 i r c :
  sizes t = [d0; d1; d2] →
  0 ≤ (i * d1 + r) * d2 + c < Z.of_nat (length (data t)) →
  load (data t) ((i * d1 + r) * d2 + c) = Some (elem t i r c).
Proof.
  intros Hs Hr. unfold elem. rewrite (entry_rank3 _ _ _ _ _ _ _ Hs).
  by destruct (load_in_range _ _ Hr) as [v ->].
Qed.

Lemma tensor_ok_rank3 t d0 d1 d2 :
  tensor_ok t → sizes t = [d0; d1; d2] →
  (0 ≤ d0 ≤ int_max ∧ 0 ≤ d1 ≤ int_max ∧ 0 ≤ d2 ≤ int_max) ∧
  Z.of_nat (length (data t)) = d0 * d1 * d2 ∧
  d0 * d1 * d2 ≤ int64_max.
Proof.
  intros (Hs & Hl & Hn) H. rewrite (numel_rank3 _ _ _ _ H) in Hl, Hn.
  rewrite H in Hs. apply Forall_cons_1 in Hs as [? Hs].
  apply Forall_cons_1 in Hs as [? Hs]. apply Forall_cons_1 in Hs as [? Hs].
  done.
Qed.

(** ** The kernel *)

Section KernelFacts.
Variable CTYPE : CType.

Lemma dot_correct x xo y yo n p i j (term : Z → scalar) :
  (∀ k, 0 ≤ k < n → ∃ xv yv,
      load x (xo + (i * n + k)) = Some xv ∧
      load y (yo + (k * p + j)) = Some yv ∧
      term k = c_mul CTYPE xv yv) →
  dot CTYPE x xo y yo n p i j = Some (sum_below CTYPE (Z.to_nat n) term).
Proof.
  intros H. unfold dot.
  assert (∀ count, Z.of_nat count ≤ Z.max n 0 →
    for_loop count 0
      (λ k sum, xv ← load x (xo + (i * n + k));
                yv ← load y (yo + (k * p + j));
                Some (c_add CTYPE sum (c_mul CTYPE xv yv)))
      (c_zero CTYPE) = Some (sum_below CTYPE count term)) as Hloop.
  { induction count as [|count IH]; intros Hc; [done|].
    rewrite for_loop_succ, IH by lia.
    cbn [mbind option_bind sum_below]. rewrite Z.add_0_l.
    destruct (H (Z.of_nat count)) as (xv & yv & -> & -> & ->); [lia|].
    done. }
  apply Hloop. lia.
Qed.

Lemma length_matrix_of val m p :
  0 ≤ m → 0 ≤ p → Z.of_nat (length (matrix_of val m p)) = m * p.
Proof.
  intros Hm Hp. unfold matrix_of.
  rewrite (length_concat_uniform (Z.to_nat p)).
  - rewrite length_fmap, length_seqZ. lia.
  - apply Forall_fmap, Forall_forall. intros i _. cbn.
    by rewrite length_fmap, length_seqZ.
Qed.

Lemma matrix_of_lookup val m p r c :
  0 ≤ r < m → 0 ≤ c < p →
  matrix_of val m p !! Z.to_nat (r * p + c) = Some (val r c).
Proof.
  intros Hr Hc. unfold matrix_of.
  replace (Z.to_nat (r * p + c))
    with (Z.to_nat r * Z.to_nat p + Z.to_nat c)%nat by nia.
  apply (lookup_concat_chunks _ _ _ _ (val r <$> seqZ 0 p)).
  - apply Forall_fmap, Forall_forall. intros i _. cbn.
    by rewrite length_fmap, length_seqZ.
  - by apply (lookup_fmap_seqZ (λ i, val i <$> seqZ 0 p)).
  - by apply lookup_fmap_seqZ.
Qed.

(** [vec_matmul] overwrites the [m * p] slots from [zo] on with the
    matrix of the dot products. *)
Lemma vec_matmul_fill x xo y yo m n p (val : Z → Z → scalar)
    (pre old post : list scalar) zo :
  0 ≤ m → 0 ≤ p →
  (∀ i j, 0 ≤ i < m → 0 ≤ j < p →
     dot CTYPE x xo y yo n p i j = Some (val i j)) →
  Z.of_nat (length pre) = zo →
  Z.of_nat (length old) = m * p →
  vec_matmul CTYPE (pre ++ old ++ post) zo x xo y yo m n p =
  Some (pre ++ matrix_of val m p ++ post).
Proof.
  intros Hm Hp Hdot Hpre Hold. unfold vec_matmul, matrix_of.
  replace (seqZ 0 m) with (seqZ 0 (Z.of_nat (Z.to_nat m)))
    by (by rewrite Z2Nat.id).
  apply (for_loop_fill (Z.to_nat p) zo).
  - intros i _. rewrite length_fmap, length_seqZ. done.
  - intros i pre' old' post' Hi Hpre' Hold'.
    rewrite <- concat_fmap_singleton.
    replace (seqZ 0 p) with (seqZ 0 (Z.of_nat (Z.to_nat p)))
      by (by rewrite Z2Nat.id).
    apply (for_loop_fill 1 (zo + i * p)).
    + done.
    + intros j pre'' old'' post'' Hj Hpre'' Hold''.
      rewrite Hdot by lia. cbn [mbind option_bind].
      apply store_fill; [lia|done].
    + lia.
    + lia.
  - lia.
  - lia.
Qed.

Lemma vec_matmul_length z zo x xo y yo m n p z' :
  vec_matmul CTYPE z zo x xo y yo m n p = Some z' →
  length z' = length z.
Proof.
  unfold vec_matmul. intros H.
  refine (for_loop_preserves (λ t, length t = length z) _ _ _ _ _ _ H eq_refl).
  intros i t t' Hrow Ht.
  refine (for_loop_preserves (λ t, length t = length z) _ _ _ _ _ _ Hrow Ht).
  intros j u u' Hst Hu. apply bind_Some in Hst as (v & _ & Hst).
  by rewrite (store_length _ _ _ _ Hst).
Qed.

Lemma bmm_batch_step_length x y m n p i z z' :
  bmm_batch_step CTYPE x y m n p i z = Some z' → length z' = length z.
Proof.
  unfold bmm_batch_step. intros H.
  do 5 (apply bind_Some in H as (? & _ & H)).
  apply bind_Some in H as (z'' & Hv & H).
  case_decide; [|done]. simplify_eq. by eapply vec_matmul_length.
Qed.

(** The early return of the kernel. *)
Lemma bmm_kernel_empty self mat2 out :
  numel self = 0 ∨ numel mat2 = 0 ∨ numel out = 0 →
  bmm_kernel CTYPE self mat2 out = Some out.
Proof. intros H. unfold bmm_kernel. by rewrite decide_True. Qed.

(** The kernel writes element data only: the handle it returns has the
    element type, the sizes, the resize capability and the storage size
    of [out]. *)
Lemma bmm_kernel_handle self mat2 out out' :
  bmm_kernel CTYPE self mat2 out = Some out' →
  out' = with_data out (data out') ∧
  length (data out') = length (data out).
Proof.
  unfold bmm_kernel. case_decide as Hguard.
  - intros [= <-]. by destruct out.
  - intros H.
    do 4 (apply bind_Some in H as (? & _ & H)).
    apply bind_Some in H as (z & Hz & H).
    simplify_eq. split; [done|]. cbn.
    refine (for_loop_preserves (λ t, length t = length (data out))
              _ _ _ _ _ _ Hz eq_refl).
    intros i t t' Hstep Ht. by rewrite (bmm_batch_step_length _ _ _ _ _ _ _ _ Hstep).
Qed.

Lemma bmm_batch_step_fill self mat2 b m n p i pre old post :
  tensor_ok self → sizes self = [b; m; n] →
  tensor_ok mat2 → sizes mat2 = [b; n; p] →
  b * m * p ≤ int64_max →
  0 ≤ i < b →
  Z.of_nat (length pre) = i * (m * p) →
  Z.of_nat (length old) = m * p →
  bmm_batch_step CTYPE (data self) (data mat2) m n p i (pre ++ old ++ post) =
  Some (pre ++ matrix_of (λ r c, bmm_entry CTYPE self mat2 n i r c) m p
            ++ post).
Proof.
  intros Hself Hss Hmat2 Hsm Hout Hi Hpre Hold.
  destruct (tensor_ok_rank3 _ _ _ _ Hself Hss)
    as ((Hb & Hm & Hn) & Hlx & Hnx).
  destruct (tensor_ok_rank3 _ _ _ _ Hmat2 Hsm)
    as ((_ & _ & Hp) & Hly & Hny).
  unfold int64_max, int_max in *.
  unfold bmm_batch_step.
  rewrite (mul64_in_range i m) by (unfold int64_min, int64_max; nia).
  cbn [mbind option_bind].
  rewrite (mul64_in_range (i * m) n) by (unfold int64_min, int64_max; nia).
  cbn [mbind option_bind].
  rewrite (mul64_in_range i n) by (unfold int64_min, int64_max; nia).
  cbn [mbind option_bind].
  rewrite (mul64_in_range (i * n) p) by (unfold int64_min, int64_max; nia).
  cbn [mbind option_bind].
  rewrite (mul64_in_range (i * m) p) by (unfold int64_min, int64_max; nia).
  cbn [mbind option_bind].
  rewrite (vec_matmul_fill _ _ _ _ m n p
             (λ r c, bmm_entry CTYPE self mat2 n i r c));
    [| lia | lia | | lia | lia].
  - cbn [mbind option_bind].
    rewrite decide_True by (unfold int_max; lia). done.
  - intros r c Hr Hc. unfold bmm_entry. apply dot_correct.
    intros k Hk. exists (elem self i r k), (elem mat2 i k c).
    split_and!; [| |done].
    + replace (i * m * n + (r * n + k)) with ((i * m + r) * n + k) by lia.
      apply (entry_elem _ _ _ _ _ _ _ Hss). rewrite Hlx.
      by apply flat_index_bound.
    + replace (i * n * p + (k * p + c)) with ((i * n + k) * p + c) by lia.
      apply (entry_elem _ _ _ _ _ _ _ Hsm). rewrite Hly.
      by apply flat_index_bound.
Qed.

(** Past its early return, the kernel overwrites the storage of [out]
    with the product. *)
Lemma bmm_kernel_product self mat2 out b m n p :
  tensor_ok self → sizes self = [b; m; n] →
  tensor_ok mat2 → sizes mat2 = [b; n; p] →
  tensor_ok out → sizes out = [b; m; p] →
  numel self ≠ 0 → numel mat2 ≠ 0 → numel out ≠ 0 →
  bmm_kernel CTYPE self mat2 out =
  Some (with_data out (product_data CTYPE self mat2 b m n p)).
Proof.
  intros Hself Hss Hmat2 Hsm Hout Hso Hn1 Hn2 Hn3.
  destruct (tensor_ok_rank3 _ _ _ _ Hself Hss)
    as ((Hb & Hm & Hn) & Hlx & Hnx).
  destruct (tensor_ok_rank3 _ _ _ _ Hmat2 Hsm)
    as ((_ & _ & Hp) & Hly & Hny).
  destruct (tensor_ok_rank3 _ _ _ _ Hout Hso) as (_ & Hlz & Hnz).
  unfold bmm_kernel. rewrite decide_False by tauto.
  destruct (size_rank3 _ _ _ _ Hss) as (-> & -> & ->).
  destruct (size_rank3 _ _ _ _ Hsm) as (_ & _ & ->).
  cbn [mbind option_bind].
  rewrite <- (app_nil_r (data out)), <- (app_nil_l (data out ++ [])).
  rewrite (for_loop_fill (Z.to_nat (m * p)) 0 _
             (λ i, matrix_of (λ r c, bmm_entry CTYPE self mat2 n i r c) m p)).
  - cbn [mbind option_bind]. unfold product_data.
    rewrite Z2Nat.id, app_nil_r by lia. done.
  - intros i _. apply Nat2Z.inj. rewrite length_matrix_of by lia. nia.
  - intros i pre old post Hi Hpre Hold.
    apply (bmm_batch_step_fill self mat2 b); try done; lia.
  - done.
  - apply Nat2Z.inj. rewrite Hlz. nia.
Qed.

Lemma product_data_lookup self mat2 b m n p i r c :
  0 ≤ i < b → 0 ≤ r < m → 0 ≤ c < p →
  load (product_data CTYPE self mat2 b m n p) ((i * m + r) * p + c) =
  Some (bmm_entry CTYPE self mat2 n i r c).
Proof.
  intros Hi Hr Hc. unfold load, product_data.
  pose proof (flat_index_bound b m p i r c Hi Hr Hc) as Hidx.
  rewrite decide_True by lia.
  assert (0 ≤ i * (m * p) ∧ 0 ≤ r * p + c ∧ 0 ≤ m * p) as (? & ? & ?)
    by nia.
  replace (Z.to_nat ((i * m + r) * p + c))
    with (Z.to_nat i * Z.to_nat (m * p) + Z.to_nat (r * p + c))%nat by nia.
  eapply lookup_concat_chunks.
  - apply Forall_fmap, Forall_forall. intros j _. cbn.
    apply Nat2Z.inj. rewrite length_matrix_of by lia. nia.
  - by apply (lookup_fmap_seqZ
                (λ i, matrix_of (λ r c, bmm_entry CTYPE self mat2 n i r c)
                        m p)).
  - by apply matrix_of_lookup.
Qed.

Lemma length_product_data self mat2 b m n p :
  0 ≤ b → 0 ≤ m → 0 ≤ p →
  Z.of_nat (length (product_data CTYPE self mat2 b m n p)) = b * m * p.
Proof.
  intros Hb Hm Hp. unfold product_data.
  rewrite (length_concat_uniform (Z.to_nat (m * p))).
  - rewrite length_fmap, length_seqZ. nia.
  - apply Forall_fmap, Forall_forall. intros j _. cbn.
    apply Nat2Z.inj. rewrite length_matrix_of by lia. nia.
Qed.
End KernelFacts.

(** ** The resolver *)
(** The fuel of [copy_leading_sizes] never decides: once it exceeds the
    slots left in the array, more fuel gives the same result. *)
Lemma copy_leading_sizes_fuel fuel fuel' self m_dim i arr :
  0 ≤ i → Z.of_nat (length arr) < i + Z.of_nat fuel → (fuel ≤ fuel')%nat →
  copy_leading_sizes fuel self m_dim i arr =
  copy_leading_sizes fuel' self m_dim i arr.
Proof.
  revert fuel' i arr. induction fuel as [|fuel IH]; intros fuel' i arr Hi Hf Hle.
  - destruct fuel' as [|fuel']; [done|]. cbn [copy_leading_sizes].
    case_decide; [|done]. destruct (size self i) as [v|]; [|done].
    cbn [mbind option_bind]. unfold array_set.
    by rewrite decide_False by lia.
  - destruct fuel' as [|fuel']; [lia|]. cbn [copy_leading_sizes].
    case_decide; [|done]. destruct (size self i) as [v|]; [|done].
    cbn [mbind option_bind]. unfold array_set. case_decide; [|done].
    cbn [mbind option_bind]. apply IH; [lia| |lia].
    rewrite length_insert. lia.
Qed.

Lemma expected_output_size_rank3 self b m n :
  sizes self = [b; m; n] →
  copy_leading_sizes (S (Z.to_nat kTensorDimensionLimit)) self 1 0
    (replicate (Z.to_nat kTensorDimensionLimit) None) =
  Some (Some b :: replicate 15 None).
Proof.
  intros Hs. destruct (size_rank3 _ _ _ _ Hs) as (H0 & _ & _).
  change (Z.to_nat kTensorDimensionLimit) with 16%nat.
  cbn [copy_leading_sizes]. rewrite decide_True by lia.
  rewrite H0. cbn [mbind option_bind].
  unfold array_set. rewrite decide_True by (cbn; lia).
  cbn [mbind option_bind]. rewrite decide_False by lia. done.
Qed.

Lemma array_ref_filled b m p (k : nat) :
  array_ref (filled_sizes b m p) (Z.of_nat k) =
  if decide (k ≤ 3)%nat then Some (take k [b; m; p]) else None.
Proof.
  unfold array_ref. rewrite Nat2Z.id.
  destruct k as [|[|[|[|k]]]]; try done.
  rewrite (decide_False (P := (S (S (S (S k))) ≤ 3)%nat)) by lia.
  by case_decide.
Qed.

Lemma array_ref_length arr n l :
  0 ≤ n → array_ref arr n = Some l → Z.of_nat (length l) = n.
Proof.
  unfold array_ref. intros Hn. case_decide as Hle; [|done]. intros Hm.
  apply length_mapM in Hm. rewrite <- Hm, length_take. lia.
Qed.

(** What [resize_tensor] does, by cases. *)
Lemma resize_tensor_cases t s :
  (sizes t = s ∧ resize_tensor t s = (Ok, t)) ∨
  (sizes t ≠ s ∧ resize_storage t s = None ∧
   resize_tensor t s = (ResizeError, t)) ∨
  (sizes t ≠ s ∧ ∃ buf, resize_storage t s = Some buf ∧
   resize_tensor t s =
   (Ok, mkTensor (scalar_type t) s buf (resize_storage t))).
Proof.
  unfold resize_tensor. case_decide; [by left|right].
  destruct (resize_storage t s) as [buf|]; [right|left]; eauto.
Qed.

(** The resolver with the array written out, for [self] of rank 3. *)
Lemma resize_out_tensor_rank3 self mat2 out b m n p :
  sizes self = [b; m; n] → size mat2 2 = Some p →
  resize_out_tensor self mat2 out =
  (output_size ← defined (array_ref (filled_sizes b m p) (dim out));
   let '(err, out') := resize_tensor out output_size in
   ET_CHECK_MSG (bool_decide (err = Ok)) ResizeFailed out';;
   Returned out').
Proof.
  intros Hs Hp. destruct (size_rank3 _ _ _ _ Hs) as (H0 & H1 & H2).
  unfold resize_out_tensor, dim. rewrite Hs.
  change (size_t_wrap (Z.of_nat (length [b; m; n]) - 2)) with 1.
  change (size_t_wrap (Z.of_nat (length [b; m; n]) - 1)) with 2.
  rewrite (expected_output_size_rank3 _ _ _ _ Hs), H1, Hp.
  cbn [defined mbind Outcome_bind].
  unfold array_set. rewrite decide_True by (cbn; lia).
  cbn [defined mbind Outcome_bind].
  case_decide as Hlen; [done|].
  exfalso. apply Hlen. rewrite length_insert. cbn. lia.
Qed.

(** The resolver ends in one of three ways, whatever the ranks. *)
Lemma resize_out_tensor_cases self mat2 out :
  resize_out_tensor self mat2 out = Undefined ∨
  resize_out_tensor self mat2 out = Aborted ResizeFailed out ∨
  ∃ output_size out',
    Z.of_nat (length output_size) = dim out ∧
    resize_tensor out output_size = (Ok, out') ∧
    resize_out_tensor self mat2 out = Returned out'.
Proof.
  unfold resize_out_tensor.
  destruct (copy_leading_sizes _ _ _ _ _) as [arr|]; [|by left].
  cbn [defined mbind Outcome_bind].
  destruct (size self _) as [self_m|]; [|by left].
  cbn [defined mbind Outcome_bind].
  destruct (array_set arr _ _) as [arr'|]; [|by left].
  cbn [defined mbind Outcome_bind].
  destruct (size mat2 _) as [mat2_n|]; [|by left].
  cbn [defined mbind Outcome_bind].
  destruct (array_set arr' _ _) as [arr''|]; [|by left].
  cbn [defined mbind Outcome_bind].
  destruct (array_ref arr'' (dim out)) as [output_size|] eqn:Href; [|by left].
  cbn [defined mbind Outcome_bind].
  apply array_ref_length in Href; [|unfold dim; lia].
  destruct (resize_tensor_cases out output_size)
    as [[_ Hr]|[(_ & _ & Hr)|(_ & buf & _ & Hr)]]; rewrite Hr.
  - right; right. by exists output_size, out.
  - right; by left.
  - right; right. eauto.
Qed.

(** The resolver for [self] and [out] of rank 3: one request to resize
    [out] to [[b; m; p]]. *)
Lemma resize_out_tensor_rank3_out self mat2 out b m n p :
  sizes self = [b; m; n] → size mat2 2 = Some p → dim out = 3 →
  resize_out_tensor self mat2 out =
  (let '(err, out') := resize_tensor out [b; m; p] in
   ET_CHECK_MSG (bool_decide (err = Ok)) ResizeFailed out';;
   Returned out').
Proof.
  intros Hs Hp Ho. rewrite (resize_out_tensor_rank3 _ _ _ _ _ _ _ Hs Hp).
  unfold dim in *. replace (length (sizes out)) with 3%nat by lia.
  by rewrite array_ref_filled.
Qed.

Lemma resize_out_tensor_rank3_returned self mat2 out out1 b m n p :
  sizes self = [b; m; n] → size mat2 2 = Some p → dim out = 3 →
  resize_out_tensor self mat2 out = Returned out1 →
  sizes out1 = [b; m; p] ∧
  scalar_type out1 = scalar_type out ∧
  resize_storage out1 = resize_storage out ∧
  (sizes out = [b; m; p] → out1 = out).
Proof.
  intros Hs Hp Ho.
  rewrite (resize_out_tensor_rank3_out _ _ _ _ _ _ _ Hs Hp Ho).
  destruct (resize_tensor_cases out [b; m; p])
    as [[Heq Hr]|[(_ & _ & Hr)|(Hne & buf & _ & Hr)]]; rewrite Hr.
  - by intros [= <-].
  - done.
  - by intros [= <-].
Qed.

(** For [self] of rank 3 and [out] of rank at most 3 the resolver has a
    defined outcome. *)
Lemma resize_out_tensor_defined self mat2 out b m n p :
  sizes self = [b; m; n] → size mat2 2 = Some p → dim out ≤ 3 →
  resize_out_tensor self mat2 out ≠ Undefined.
Proof.
  intros Hs Hp Ho. rewrite (resize_out_tensor_rank3 _ _ _ _ _ _ _ Hs Hp).
  unfold dim in *. rewrite array_ref_filled, decide_True by lia.
  cbn [defined mbind Outcome_bind].
  by destruct (resize_tensor_cases out (take (length (sizes out)) [b; m; p]))
    as [[_ ->]|[(_ & _ & ->)|(_ & buf & _ & ->)]].
Qed.

(** ** The validator *)
(** Case analysis on the condition of the next check. *)
Ltac case_check P :=
  destruct (decide P) as [?H|?H];
  [rewrite (bool_decide_eq_true_2 P) by done
  |rewrite (bool_decide_eq_false_2 P) by done];
  cbn [mbind Outcome_bind].

Lemma dim_rank3 t : dim t = 3 ↔ ∃ d0 d1 d2, sizes t = [d0; d1; d2].
Proof.
  unfold dim. split.
  - destruct (sizes t) as [|d0 [|d1 [|d2 [|d3 l]]]]; cbn; try lia; eauto.
  - intros (d0 & d1 & d2 & ->). done.
Qed.

(** The validator on tensors of rank 3: the five checks on the sizes, in
    the order of the source. *)
Lemma check_bmm_out_args_rank3 self mat2 out b m n b' n' p ob om op :
  sizes self = [b; m; n] → sizes mat2 = [b'; n'; p] →
  sizes out = [ob; om; op] →
  check_bmm_out_args self mat2 out =
  if decide (b < 0) then Aborted BatchNegative out
  else if decide (b ≠ b') then Aborted SelfMat2Batch out
  else if decide (b ≠ ob) then Aborted SelfOutBatch out
  else if decide (p ≠ op) then Aborted Mat2OutCols out
  else if decide (m ≠ om) then Aborted SelfOutRows out
  else Returned tt.
Proof.
  intros Hs Hm Ho. unfold check_bmm_out_args, dim.
  destruct (size_rank3 _ _ _ _ Hs) as (-> & -> & _).
  destruct (size_rank3 _ _ _ _ Hm) as (-> & _ & ->).
  destruct (size_rank3 _ _ _ _ Ho) as (-> & -> & ->).
  rewrite Hs, Hm, Ho. cbn [length defined mbind Outcome_bind].
  unfold ET_CHECK_MSG.
  rewrite (bool_decide_eq_true_2 (Z.of_nat 3 = Z.of_nat 3)) by done.
  rewrite (bool_decide_eq_true_2 (Z.of_nat 3 = 3)) by done.
  cbn [mbind Outcome_bind].
  repeat case_decide;
    repeat (case_bool_decide; cbn [mbind Outcome_bind]); done || lia.
Qed.

(** The validator on tensors that are not all of rank 3: one of the three
    rank checks fails. *)
Lemma check_bmm_out_args_rank self mat2 out :
  ¬ (dim self = 3 ∧ dim mat2 = 3 ∧ dim out = 3) →
  ∃ c, check_bmm_out_args self mat2 out = Aborted c out ∧
       ((c = SelfMat2Dim ∧ dim self ≠ dim mat2) ∨
        (c = SelfOutDim ∧ dim self ≠ dim out) ∨
        (c = SelfDimNot3 ∧ dim self ≠ 3)).
Proof.
  intros Hr. unfold check_bmm_out_args, ET_CHECK_MSG.
  case_check (dim self = dim mat2); [|eexists; split; [reflexivity|tauto]].
  case_check (dim self = dim out); [|eexists; split; [reflexivity|tauto]].
  case_check (dim self = 3); [|eexists; split; [reflexivity|tauto]].
  exfalso. apply Hr. lia.
Qed.

(** The validator returns or fails one of its checks, and leaves [out]
    as it is. *)
Lemma check_bmm_out_args_outcome self mat2 out :
  check_bmm_out_args self mat2 out = Returned tt ∨
  ∃ c, check_bmm_out_args self mat2 out = Aborted c out ∧
       c ∈ validator_checks.
Proof.
  destruct (decide (dim self = 3 ∧ dim mat2 = 3 ∧ dim out = 3))
    as [(Hs & Hm & Ho)|Hr].
  - apply dim_rank3 in Hs as (b & m & n & Hs).
    apply dim_rank3 in Hm as (b' & n' & p & Hm).
    apply dim_rank3 in Ho as (ob & om & op & Ho).
    rewrite (check_bmm_out_args_rank3 _ _ _ _ _ _ _ _ _ _ _ _ Hs Hm Ho).
    repeat case_decide; [right; eexists; split;
                           [reflexivity|repeat constructor]..|by left].
  - right. destruct (check_bmm_out_args_rank _ _ _ Hr)
      as (c & Hc & [[-> _]|[[-> _]|[-> _]]]);
      (eexists; split; [done|repeat constructor]).
Qed.

(** What the validator has established when it returns. *)
Lemma check_bmm_out_args_returned self mat2 out :
  check_bmm_out_args self mat2 out = Returned tt →
  ∃ b m n n' p,
    sizes self = [b; m; n] ∧ sizes mat2 = [b; n'; p] ∧
    sizes out = [b; m; p] ∧ 0 ≤ b.
Proof.
  intros Hc.
  destruct (decide (dim self = 3 ∧ dim mat2 = 3 ∧ dim out = 3))
    as [(Hs & Hm & Ho)|Hr].
  - apply dim_rank3 in Hs as (b & m & n & Hs).
    apply dim_rank3 in Hm as (b' & n' & p & Hm).
    apply dim_rank3 in Ho as (ob & om & op & Ho).
    rewrite (check_bmm_out_args_rank3 _ _ _ _ _ _ _ _ _ _ _ _ Hs Hm Ho)
      in Hc.
    repeat case_decide; try done.
    exists b, m, n, n', p.
    assert (b = b') as <- by lia. assert (b = ob) as <- by lia.
    assert (p = op) as <- by lia. assert (m = om) as <- by lia.
    split_and!; [done..|lia].
  - destruct (check_bmm_out_args_rank _ _ _ Hr) as (c & Hc' & _).
    by rewrite Hc' in Hc.
Qed.

(** ** The operator *)

(** The call after the resolver. *)
Lemma bmm_out_resolved ctx self mat2 out out1 :
  resize_out_tensor self mat2 out = Returned out1 →
  bmm_out ctx self mat2 out =
  (check_bmm_out_args self mat2 out1;;
   ET_CHECK_SAME_DTYPE3 self mat2 out1 out1;;
   match switch_case ET_FORALL_REAL_TYPES (scalar_type self) with
   | Some ctype => defined (bmm_kernel ctype self mat2 out1)
   | None => Aborted UnhandledDtype out1
   end).
Proof. intros H. unfold bmm_out. by rewrite H. Qed.

(** The call after the resolver, the validator and the element type
    check: the dispatch. *)
Lemma bmm_out_dispatch ctx self mat2 out out1 :
  resize_out_tensor self mat2 out = Returned out1 →
  check_bmm_out_args self mat2 out1 = Returned tt →
  same_dtype3 self mat2 out1 →
  bmm_out ctx self mat2 out =
  match switch_case ET_FORALL_REAL_TYPES (scalar_type self) with
  | Some ctype => defined (bmm_kernel ctype self mat2 out1)
  | None => Aborted UnhandledDtype out1
  end.
Proof.
  intros Hr Hc Hd. rewrite (bmm_out_resolved _ _ _ _ _ Hr), Hc.
  unfold ET_CHECK_SAME_DTYPE3, ET_CHECK_MSG.
  by rewrite bool_decide_eq_true_2.
Qed.

(** A valid call: rank-3 inputs with one batch count, an [out] of rank 3
    that the resolver could size, one element type. *)
Lemma bmm_out_valid ctx self mat2 out out1 b m n n' p :
  sizes self = [b; m; n] → sizes mat2 = [b; n'; p] → 0 ≤ b →
  dim out = 3 → same_dtype3 self mat2 out →
  resize_out_tensor self mat2 out = Returned out1 →
  sizes out1 = [b; m; p] ∧
  bmm_out ctx self mat2 out =
  match switch_case ET_FORALL_REAL_TYPES (scalar_type self) with
  | Some ctype => defined (bmm_kernel ctype self mat2 out1)
  | None => Aborted UnhandledDtype out1
  end.
Proof.
  intros Hs Hm Hb Ho [Hd1 Hd2] Hr.
  destruct (size_rank3 _ _ _ _ Hm) as (_ & _ & Hp).
  destruct (resize_out_tensor_rank3_returned _ _ _ _ _ _ _ _ Hs Hp Ho Hr)
    as (Hs1 & Hst & _ & _).
  split; [done|]. apply bmm_out_dispatch; [done| |].
  - rewrite (check_bmm_out_args_rank3 _ _ _ _ _ _ _ _ _ _ _ _ Hs Hm Hs1).
    by rewrite decide_False, !decide_False by (try lia; by intros []).
  - split; [done|]. by rewrite Hst.
Qed.

(** What the resolver returns is [out] itself or [out] with the shape
    and the storage its resize capability delivered; the rank and the
    element type are those of [out]. *)
Lemma resize_out_tensor_returned self mat2 out out1 :
  resize_out_tensor self mat2 out = Returned out1 →
  dim out1 = dim out ∧
  scalar_type out1 = scalar_type out ∧
  (out1 = out ∨
   ∃ s buf, sizes out ≠ s ∧ resize_storage out s = Some buf ∧
            out1 = mkTensor (scalar_type out) s buf (resize_storage out)).
Proof.
  intros Hr.
  destruct (resize_out_tensor_cases self mat2 out)
    as [Hu|[Ha|(s & out' & Hlen & Hrt & Hr')]]; [congruence..|].
  assert (out' = out1) as -> by congruence.
  destruct (resize_tensor_cases out s)
    as [[Heq Hc]|[(_ & _ & Hc)|(Hne & buf & Hbuf & Hc)]];
    rewrite Hc in Hrt; simplify_eq.
  - split_and!; [done..|by left].
  - split_and!; [by unfold dim|done|right; eauto].
Qed.

(** The [switch] of [bmm_out] on a supported element type: the one case
    of that type. *)
Lemma switch_case_supported st :
  supported st →
  ∃ ctype, switch_case ET_FORALL_REAL_TYPES st = Some ctype ∧
           (ctype, st) ∈ ET_FORALL_REAL_TYPES ∧
           ∀ ctype', (ctype', st) ∈ ET_FORALL_REAL_TYPES → ctype' = ctype.
Proof.
  intros H. apply list_elem_of_In in H. cbn in H.
  repeat (destruct H as [<-|H];
          [eexists; split_and!;
             [reflexivity|repeat constructor|
              intros c' Hc'; apply list_elem_of_In in Hc'; cbn in Hc';
              intuition congruence]|]).
  done.
Qed.

(** ... and on any other element type: the default case. *)
Lemma switch_case_unsupported st :
  ¬ supported st → switch_case ET_FORALL_REAL_TYPES st = None.
Proof.
  intros H. destruct st; try reflexivity;
    exfalso; apply H; unfold supported; cbn; repeat constructor.
Qed.

(** Every way a call can end. *)
Lemma bmm_out_cases ctx self mat2 out :
  match bmm_out ctx self mat2 out with
  | Returned out2 =>
      ∃ out1 ctype,
        resize_out_tensor self mat2 out = Returned out1 ∧
        check_bmm_out_args self mat2 out1 = Returned tt ∧
        same_dtype3 self mat2 out1 ∧
        switch_case ET_FORALL_REAL_TYPES (scalar_type self) = Some ctype ∧
        bmm_kernel ctype self mat2 out1 = Some out2
  | Aborted c t =>
      (c = ResizeFailed ∧ t = out ∧
       resize_out_tensor self mat2 out = Aborted ResizeFailed out) ∨
      (resize_out_tensor self mat2 out = Returned t ∧
       ((c ∈ validator_checks ∧
         check_bmm_out_args self mat2 t = Aborted c t) ∨
        (c = DtypeMismatch ∧
         check_bmm_out_args self mat2 t = Returned tt ∧
         ¬ same_dtype3 self mat2 t) ∨
        (c = UnhandledDtype ∧
         check_bmm_out_args self mat2 t = Returned tt ∧
         same_dtype3 self mat2 t ∧
         switch_case ET_FORALL_REAL_TYPES (scalar_type self) = None)))
  | Undefined =>
      resize_out_tensor self mat2 out = Undefined ∨
      ∃ out1 ctype,
        resize_out_tensor self mat2 out = Returned out1 ∧
        check_bmm_out_args self mat2 out1 = Returned tt ∧
        same_dtype3 self mat2 out1 ∧
        switch_case ET_FORALL_REAL_TYPES (scalar_type self) = Some ctype ∧
        bmm_kernel ctype self mat2 out1 = None
  end.
Proof.
  destruct (resize_out_tensor_cases self mat2 out)
    as [Hr|[Hr|(s & out1 & _ & _ & Hr)]].
  - unfold bmm_out. rewrite Hr. by left.
  - unfold bmm_out. rewrite Hr. by left.
  - rewrite (bmm_out_resolved _ _ _ _ _ Hr).
    destruct (check_bmm_out_args_outcome self mat2 out1)
      as [Hc|(c & Hc & Hin)]; rewrite Hc; cbn [mbind Outcome_bind].
    2: { right. split; [done|]. by left. }
    unfold ET_CHECK_SAME_DTYPE3, ET_CHECK_MSG.
    destruct (decide (same_dtype3 self mat2 out1)) as [Hd|Hd].
    + rewrite bool_decide_eq_true_2 by done. cbn [mbind Outcome_bind].
      destruct (switch_case _ _) as [ctype|] eqn:Hsw.
      * destruct (bmm_kernel _ _ _ _) as [out2|] eqn:Hk; cbn [defined].
        -- by exists out1, ctype.
        -- right. by exists out1, ctype.
      * right. split; [done|]. right; right. done.
    + rewrite bool_decide_eq_false_2 by done. cbn [mbind Outcome_bind].
      right. split; [done|]. right; left. done.
Qed.

(** Claim C1, as amended: for [self] of shape [(b, rows, inner)] and
    [mat2] of shape [(b, inner, cols)], well formed, with [out] of rank 3
    and of the same supported real element type, when the resolver has
    sized [out] and its storage holds [b * rows * cols] elements, and
    [inner] is positive or [out] has no element, the call returns [out]
    with shape [(b, rows, cols)], and each [out[i][r][c]] is the sum over
    [k] in [[0, inner)] of [self[i][r][k] * mat2[i][k][c]], accumulated in
    the arithmetic of the element type (at an integer type: the exact
    sum reduced to the width of the type, [bmm_entry_int]).  The concrete
    scenario of the specification gives [[4,5],[10,11]] in both batches,
    at each of the supported element types. *)
Theorem bmm_out_computes_product :
  (∀ ctx self mat2 out out1 b rows inner cols ctype,
     tensor_ok self → sizes self = [b; rows; inner] →
     tensor_ok mat2 → sizes mat2 = [b; inner; cols] →
     dim out = 3 → same_dtype3 self mat2 out →
     switch_case ET_FORALL_REAL_TYPES (scalar_type self) = Some ctype →
     resize_out_tensor self mat2 out = Returned out1 → tensor_ok out1 →
     0 < inner ∨ b * rows * cols = 0 →
     ∃ out2,
       bmm_out ctx self mat2 out = Returned out2 ∧
       sizes out2 = [b; rows; cols] ∧
       scalar_type out2 = scalar_type self ∧
       ∀ i r c, 0 ≤ i < b → 0 ≤ r < rows → 0 ≤ c < cols →
         entry out2 i r c = Some (bmm_entry ctype self mat2 inner i r c)) ∧
  Forall (λ '(ctype, dtype),
            ∃ out2,
              bmm_out tt (scenario_self ctype dtype)
                (scenario_mat2 ctype dtype) (scenario_out ctype dtype)
              = Returned out2 ∧
              sizes out2 = [2; 2; 2] ∧
              data out2 = of_Z ctype <$> [4; 5; 10; 11; 4; 5; 10; 11])
         ET_FORALL_REAL_TYPES.
Proof.
  split.
  - intros ctx self mat2 out out1 b rows inner cols ctype
      Hself Hss Hmat2 Hsm Ho Hd Hsw Hr Hout1 Hinner.
    destruct (tensor_ok_rank3 _ _ _ _ Hself Hss) as ((Hb & Hrows & Hin) & _).
    destruct (tensor_ok_rank3 _ _ _ _ Hmat2 Hsm) as ((_ & _ & Hcols) & _).
    destruct (bmm_out_valid ctx _ _ _ _ _ _ _ _ _ Hss Hsm (proj1 Hb) Ho Hd Hr)
      as [Hs1 ->].
    destruct (size_rank3 _ _ _ _ Hsm) as (_ & _ & Hp).
    destruct (resize_out_tensor_rank3_returned _ _ _ _ _ _ _ _ Hss Hp Ho Hr)
      as (_ & Hst & _ & _).
    rewrite Hsw.
    destruct (decide (b * rows * cols = 0)) as [Hz|Hnz].
    + exists out1. rewrite bmm_kernel_empty
        by (right; right; by rewrite (numel_rank3 _ _ _ _ Hs1)).
      split_and!; [done|done|by rewrite Hst; destruct Hd as [-> ->]|].
      intros i r c Hi Hrr Hc. exfalso.
      assert (0 < b * rows) by nia. nia.
    + destruct Hinner as [Hinner|?]; [|done].
      exists (with_data out1 (product_data ctype self mat2 b rows inner cols)).
      rewrite (bmm_kernel_product _ self mat2 out1 b rows inner cols);
        try done.
      * split_and!; [done|done|by cbn; rewrite Hst; destruct Hd as [-> ->]|].
        intros i r c Hi Hrr Hc.
        rewrite (entry_rank3 _ b rows cols) by done. cbn [data with_data].
        by apply product_data_lookup.
      * rewrite (numel_rank3 _ _ _ _ Hss). nia.
      * rewrite (numel_rank3 _ _ _ _ Hsm). nia.
      * by rewrite (numel_rank3 _ _ _ _ Hs1).
  - repeat constructor; eexists;
      (split; [vm_compute; reflexivity|split; vm_compute; reflexivity]).
Qed.

(** Claim C1: the example the general statement is applied to is the
    scenario at [int32_t]. *)
Lemma bmm_out_computes_product_witness :
  ∃ out2,
    bmm_out tt (scenario_self int32_t Int) (scenario_mat2 int32_t Int)
      (scenario_out int32_t Int) = Returned out2 ∧
    sizes out2 = [2; 2; 2] ∧
    scalar_type out2 = Int ∧
    ∀ i r c, 0 ≤ i < 2 → 0 ≤ r < 2 → 0 ≤ c < 2 →
      entry out2 i r c =
      Some (bmm_entry int32_t (scenario_self int32_t Int)
              (scenario_mat2 int32_t Int) 3 i r c).
Proof.
  apply (proj1 bmm_out_computes_product tt
           (scenario_self int32_t Int) (scenario_mat2 int32_t Int)
           (scenario_out int32_t Int) scenario_resized
           2 2 3 2 int32_t).
  - compute_done.
  - reflexivity.
  - compute_done.
  - reflexivity.
  - reflexivity.
  - split; reflexivity.
  - reflexivity.
  - vm_compute. reflexivity.
  - compute_done.
  - left. lia.
Defined.

(** Claim C1 as stated fails when the inner dimension is zero: the inputs
    are well formed, of shapes [(1,1,0)] and [(1,0,1)] and of one
    supported type, the call returns, and [out[0][0][0]] is the 7 that
    [out] held, not the empty sum. *)
Lemma bmm_out_zero_inner_counterexample :
  tensor_ok zero_inner_self ∧ sizes zero_inner_self = [1; 1; 0] ∧
  tensor_ok zero_inner_mat2 ∧ sizes zero_inner_mat2 = [1; 0; 1] ∧
  same_dtype3 zero_inner_self zero_inner_mat2 (out_holding 7) ∧
  switch_case ET_FORALL_REAL_TYPES (scalar_type zero_inner_self)
    = Some int32_t ∧
  bmm_out tt zero_inner_self zero_inner_mat2 (out_holding 7)
    = Returned (out_holding 7) ∧
  entry (out_holding 7) 0 0 0 = Some (IntVal 7) ∧
  bmm_entry int32_t zero_inner_self zero_inner_mat2 0 0 0 0 = IntVal 0 ∧
  entry (out_holding 7) 0 0 0
    ≠ Some (bmm_entry int32_t zero_inner_self zero_inner_mat2 0 0 0 0).
Proof.
  split_and!; try reflexivity; try compute_done.
  vm_compute. discriminate.
Qed.

(** Claim C2: when the shared inner dimension is zero and the other
    extents are positive, [out] has elements after the resolver and the
    call returns it as the resolver left it: no element is written.  When
    [out] already had the expected shape the call returns [out] itself.
    The product the specification describes is the zero matrix. *)
Theorem bmm_out_zero_inner_keeps_out
    ctx self mat2 out out1 b rows cols ctype :
  sizes self = [b; rows; 0] → sizes mat2 = [b; 0; cols] →
  0 < b → 0 < rows → 0 < cols →
  dim out = 3 → same_dtype3 self mat2 out →
  switch_case ET_FORALL_REAL_TYPES (scalar_type self) = Some ctype →
  resize_out_tensor self mat2 out = Returned out1 →
  0 < numel out1 ∧
  bmm_out ctx self mat2 out = Returned out1 ∧
  (sizes out = [b; rows; cols] → out1 = out) ∧
  ∀ i r c, bmm_entry ctype self mat2 0 i r c = c_zero ctype.
Proof.
  intros Hs Hm Hb Hrows Hcols Ho Hd Hsw Hr.
  destruct (bmm_out_valid ctx _ _ _ _ _ _ _ _ _ Hs Hm (Z.lt_le_incl _ _ Hb)
              Ho Hd Hr) as [Hs1 ->].
  destruct (size_rank3 _ _ _ _ Hm) as (_ & _ & Hp).
  destruct (resize_out_tensor_rank3_returned _ _ _ _ _ _ _ _ Hs Hp Ho Hr)
    as (_ & _ & _ & Hsame).
  rewrite Hsw, bmm_kernel_empty
    by (left; rewrite (numel_rank3 _ _ _ _ Hs); lia).
  split_and!; [|done|done|done].
  rewrite (numel_rank3 _ _ _ _ Hs1). nia.
Qed.

(** Claim C2, on an [out] that holds a 7: it still holds it after the
    call. *)
Lemma bmm_out_zero_inner_keeps_out_witness :
  0 < numel (out_holding 7) ∧
  bmm_out tt zero_inner_self zero_inner_mat2 (out_holding 7)
    = Returned (out_holding 7) ∧
  (sizes (out_holding 7) = [1; 1; 1] → out_holding 7 = out_holding 7) ∧
  ∀ i r c, bmm_entry int32_t zero_inner_self zero_inner_mat2 0 i r c
           = c_zero int32_t.
Proof.
  apply (bmm_out_zero_inner_keeps_out tt zero_inner_self zero_inner_mat2
           (out_holding 7) (out_holding 7) 1 1 1 int32_t);
    try reflexivity; try lia.
  split; reflexivity.
Defined.

(** Claim C3: the validator does not compare the inner dimensions.  It
    accepts rank-3 tensors whose batch counts agree and whose [out] has
    the rows of [self] and the columns of [mat2], whatever the two inner
    dimensions are; and on a 1x2 [self] and a 3x1 [mat2] the call passes
    validation, runs the kernel and returns. *)
Theorem check_bmm_out_args_skips_inner_dim :
  (∀ self mat2 out b rows inner1 inner2 cols,
     sizes self = [b; rows; inner1] → sizes mat2 = [b; inner2; cols] →
     sizes out = [b; rows; cols] → 0 ≤ b →
     check_bmm_out_args self mat2 out = Returned tt) ∧
  (size inner2_self 2 = Some 2 ∧ size inner3_mat2 1 = Some 3 ∧
   dim inner2_self = 3 ∧ dim inner3_mat2 = 3 ∧ dim (out_holding 0) = 3 ∧
   size inner2_self 0 = size inner3_mat2 0 ∧
   size inner2_self 0 = size (out_holding 0) 0 ∧
   size inner2_self 1 = size (out_holding 0) 1 ∧
   size inner3_mat2 2 = size (out_holding 0) 2 ∧
   same_dtype3 inner2_self inner3_mat2 (out_holding 0) ∧
   check_bmm_out_args inner2_self inner3_mat2 (out_holding 0) = Returned tt ∧
   bmm_kernel int32_t inner2_self inner3_mat2 (out_holding 0)
     = Some (out_holding 31) ∧
   bmm_out tt inner2_self inner3_mat2 (out_holding 0)
     = Returned (out_holding 31)).
Proof.
  split.
  - intros self mat2 out b rows inner1 inner2 cols Hs Hm Ho Hb.
    rewrite (check_bmm_out_args_rank3 _ _ _ _ _ _ _ _ _ _ _ _ Hs Hm Ho).
    by rewrite decide_False, !decide_False by (try lia; by intros []).
  - split_and!; try reflexivity. split; reflexivity.
Qed.

(** Claim C3, on the 1x2 and 3x1 inputs. *)
Lemma check_bmm_out_args_skips_inner_dim_witness :
  check_bmm_out_args inner2_self inner3_mat2 (out_holding 0) = Returned tt.
Proof.
  apply (proj1 check_bmm_out_args_skips_inner_dim
           inner2_self inner3_mat2 (out_holding 0) 1 1 2 3 1);
    try reflexivity. lia.
Defined.

(** Claim C4 as stated fails for an [out] whose rank is not 3: the shape
    requested has as many extents as [out] has dimensions.  Here [self]
    and [mat2] are 1x1x1, the expected shape is [[1; 1; 1]], [out] is 5x5
    and resizable; the resolver succeeds and leaves [out] with the shape
    [[1; 1]], and the validator then fails the call. *)
Lemma resize_out_tensor_rank2_counterexample :
  size unit_tensor 0 = Some 1 ∧ size unit_tensor 1 = Some 1 ∧
  size unit_tensor 2 = Some 1 ∧
  sizes rank2_out = [5; 5] ∧
  resize_out_tensor unit_tensor unit_tensor rank2_out
    = Returned rank2_resized ∧
  sizes rank2_resized = [1; 1] ∧
  sizes rank2_resized ≠ [1; 1; 1] ∧
  bmm_out tt unit_tensor unit_tensor rank2_out
    = Aborted SelfOutDim rank2_resized.
Proof. split_and!; try reflexivity. discriminate. Qed.

(** Claim C4, as amended: when [self] and [out] have rank 3 (and [mat2]
    has a dimension 2), the resolver requests exactly the shape
    [[self.shape[0]; self.shape[1]; mat2.shape[2]]]: it leaves an [out] of
    that shape as it is, and otherwise resizes [out] to it or fails.  A
    failure ends the call at once with [ResizeFailed]; after a success the
    validator, the element type check and the kernel run on the resized
    [out]. *)
Theorem resize_out_tensor_expected_shape
    ctx self mat2 out b rows inner cols :
  sizes self = [b; rows; inner] → size mat2 2 = Some cols → dim out = 3 →
  resize_out_tensor self mat2 out =
    (if decide (sizes out = [b; rows; cols]) then Returned out
     else match resize_storage out [b; rows; cols] with
          | Some buf =>
              Returned (mkTensor (scalar_type out) [b; rows; cols] buf
                          (resize_storage out))
          | None => Aborted ResizeFailed out
          end) ∧
  (resize_out_tensor self mat2 out = Aborted ResizeFailed out →
   bmm_out ctx self mat2 out = Aborted ResizeFailed out) ∧
  (∀ out1, resize_out_tensor self mat2 out = Returned out1 →
     sizes out1 = [b; rows; cols] ∧
     bmm_out ctx self mat2 out =
     (check_bmm_out_args self mat2 out1;;
      ET_CHECK_SAME_DTYPE3 self mat2 out1 out1;;
      match switch_case ET_FORALL_REAL_TYPES (scalar_type self) with
      | Some ctype => defined (bmm_kernel ctype self mat2 out1)
      | None => Aborted UnhandledDtype out1
      end)).
Proof.
  intros Hs Hp Ho. split_and!.
  - rewrite (resize_out_tensor_rank3_out _ _ _ _ _ _ _ Hs Hp Ho).
    unfold resize_tensor. case_decide; [done|].
    by destruct (resize_storage out _).
  - intros Hr. unfold bmm_out. by rewrite Hr.
  - intros out1 Hr. split.
    + by destruct (resize_out_tensor_rank3_returned _ _ _ _ _ _ _ _
                     Hs Hp Ho Hr).
    + by apply bmm_out_resolved.
Qed.

(** Claim C4, on the scenario of the specification: the empty [out] is
    resized to [[2; 2; 2]]. *)
Lemma resize_out_tensor_expected_shape_witness :
  resize_out_tensor (scenario_self int32_t Int) (scenario_mat2 int32_t Int)
    (scenario_out int32_t Int) =
  Returned scenario_resized.
Proof.
  pose proof (proj1 (resize_out_tensor_expected_shape tt
           (scenario_self int32_t Int) (scenario_mat2 int32_t Int)
           (scenario_out int32_t Int) 2 2 3 2
           eq_refl eq_refl eq_refl)) as H.
  exact H.
Defined.

(** Claim C5: a call that fails a check leaves [out] as the resolver left
    it: [out] itself when the resize failed (or was not needed), else
    [out] with the shape and storage its resize capability delivered.  The
    kernel, which alone writes elements, has not run; a call that returns
    has passed the resolver and every check, and returns what the kernel
    made of the resolved [out]. *)
Theorem bmm_out_failure_writes_nothing ctx self mat2 out :
  (∀ c t, bmm_out ctx self mat2 out = Aborted c t →
     (c = ResizeFailed → t = out) ∧
     (c ≠ ResizeFailed → resize_out_tensor self mat2 out = Returned t) ∧
     (t = out ∨
      ∃ s buf, sizes out ≠ s ∧ resize_storage out s = Some buf ∧
               t = mkTensor (scalar_type out) s buf (resize_storage out))) ∧
  (∀ out2, bmm_out ctx self mat2 out = Returned out2 →
     ∃ out1 ctype,
       resize_out_tensor self mat2 out = Returned out1 ∧
       check_bmm_out_args self mat2 out1 = Returned tt ∧
       same_dtype3 self mat2 out1 ∧
       switch_case ET_FORALL_REAL_TYPES (scalar_type self) = Some ctype ∧
       bmm_kernel ctype self mat2 out1 = Some out2).
Proof.
  pose proof (bmm_out_cases ctx self mat2 out) as Hcases. split.
  - intros c t Hb. rewrite Hb in Hcases.
    destruct Hcases as [(-> & -> & Hr)|(Hr & Hc)].
    + split_and!; [done|done|by left].
    + destruct (resize_out_tensor_returned _ _ _ _ Hr) as (_ & _ & Ht).
      split_and!; [|done|done].
      intros ->. destruct Hc as [[Hin _]|[[? _]|[? _]]]; [|done..].
      exfalso. revert Hin. unfold validator_checks.
      rewrite !elem_of_cons, elem_of_nil. intuition discriminate.
  - intros out2 Hb. by rewrite Hb in Hcases.
Qed.

(** Claim C5, on a call that fails the element type check: [out] still
    holds its 7. *)
Lemma bmm_out_failure_writes_nothing_witness :
  bmm_out tt unit_tensor unit_tensor float_out
    = Aborted DtypeMismatch float_out ∧
  resize_out_tensor unit_tensor unit_tensor float_out = Returned float_out.
Proof.
  assert (bmm_out tt unit_tensor unit_tensor float_out
          = Aborted DtypeMismatch float_out) as H by reflexivity.
  split; [exact H|].
  apply (proj1 (bmm_out_failure_writes_nothing tt unit_tensor unit_tensor
                  float_out) DtypeMismatch float_out H).
  discriminate.
Defined.

(** Mixed element types, where the resolver has an outcome: a call whose
    three tensors do not have one element type never returns, so the
    kernel result is never produced: it fails a check whenever the
    resolver is defined, as it is for [self] of rank 3, [mat2] of rank at
    least 3 and [out] of rank at most 3, and it fails the element type
    check when the resolver and the validator pass. *)
Theorem bmm_out_rejects_mixed_dtypes ctx self mat2 out :
  ¬ same_dtype3 self mat2 out →
  (∀ out2, bmm_out ctx self mat2 out ≠ Returned out2) ∧
  (resize_out_tensor self mat2 out ≠ Undefined →
   ∃ c t, bmm_out ctx self mat2 out = Aborted c t) ∧
  (dim self = 3 → 3 ≤ dim mat2 → dim out ≤ 3 →
   ∃ c t, bmm_out ctx self mat2 out = Aborted c t) ∧
  (∀ out1, resize_out_tensor self mat2 out = Returned out1 →
     check_bmm_out_args self mat2 out1 = Returned tt →
     bmm_out ctx self mat2 out = Aborted DtypeMismatch out1).
Proof.
  intros Hd.
  assert (∀ out1, resize_out_tensor self mat2 out = Returned out1 →
                  ¬ same_dtype3 self mat2 out1) as Hd1.
  { intros out1 Hr [H1 H2]. apply Hd.
    destruct (resize_out_tensor_returned _ _ _ _ Hr) as (_ & Hst & _).
    split; [done|]. by rewrite <- Hst. }
  pose proof (bmm_out_cases ctx self mat2 out) as Hcases.
  assert (resize_out_tensor self mat2 out ≠ Undefined →
          ∃ c t, bmm_out ctx self mat2 out = Aborted c t) as Hrej.
  { intros Hdef. destruct (bmm_out ctx self mat2 out) as [out2|c t|]; [|eauto|].
    - destruct Hcases as (out1 & ctype & Hr & _ & Hsame & _).
      by destruct (Hd1 out1).
    - destruct Hcases as [?|(out1 & ctype & Hr & _ & Hsame & _)]; [done|].
      by destruct (Hd1 out1). }
  split_and!.
  - intros out2 Hb. rewrite Hb in Hcases.
    destruct Hcases as (out1 & ctype & Hr & _ & Hsame & _).
    by apply (Hd1 out1).
  - done.
  - intros Hs Hm Ho. apply Hrej.
    apply dim_rank3 in Hs as (b & m & n & Hs).
    assert (is_Some (size mat2 2)) as [p Hp].
    { unfold size. rewrite decide_True by lia.
      apply lookup_lt_is_Some. unfold dim in Hm. lia. }
    by apply (resize_out_tensor_defined _ _ _ _ _ _ _ Hs Hp).
  - intros out1 Hr Hc. rewrite (bmm_out_resolved _ _ _ _ _ Hr), Hc.
    unfold ET_CHECK_SAME_DTYPE3, ET_CHECK_MSG.
    rewrite bool_decide_eq_false_2; [done|]. by apply Hd1.
Qed.

(** Mixed element types on valid 1x1x1 shapes: a [Float] output for [Int]
    inputs. *)
Lemma bmm_out_rejects_mixed_dtypes_witness :
  ¬ same_dtype3 unit_tensor unit_tensor float_out ∧
  (∀ out2, bmm_out tt unit_tensor unit_tensor float_out ≠ Returned out2) ∧
  bmm_out tt unit_tensor unit_tensor float_out
    = Aborted DtypeMismatch float_out.
Proof.
  assert (¬ same_dtype3 unit_tensor unit_tensor float_out) as Hd
    by (intros [_ H]; discriminate H).
  destruct (bmm_out_rejects_mixed_dtypes tt unit_tensor unit_tensor
              float_out Hd) as (H1 & _ & _ & H3).
  split_and!; [exact Hd|exact H1|].
  apply H3; reflexivity.
Defined.


(** Claim C8: a call whose common element type is not one of the
    supported real kinds never returns, and once the resolver, the
    validator and the element type check have passed it fails with
    [UnhandledDtype] on the resolved [out], without running a kernel.  For
    a supported element type there is exactly one case of that type in
    the switch, and the call is the kernel of that case, run once. *)
Theorem bmm_out_dispatches_on_dtype ctx self mat2 out :
  same_dtype3 self mat2 out →
  (¬ supported (scalar_type self) →
     (∀ out2, bmm_out ctx self mat2 out ≠ Returned out2) ∧
     (∀ out1, resize_out_tensor self mat2 out = Returned out1 →
        check_bmm_out_args self mat2 out1 = Returned tt →
        bmm_out ctx self mat2 out = Aborted UnhandledDtype out1)) ∧
  (supported (scalar_type self) →
     ∃ ctype,
       (ctype, scalar_type self) ∈ ET_FORALL_REAL_TYPES ∧
       (∀ ctype', (ctype', scalar_type self) ∈ ET_FORALL_REAL_TYPES →
                  ctype' = ctype) ∧
       (∀ out1, resize_out_tensor self mat2 out = Returned out1 →
          check_bmm_out_args self mat2 out1 = Returned tt →
          bmm_out ctx self mat2 out =
          defined (bmm_kernel ctype self mat2 out1))).
Proof.
  intros [Hd1 Hd2].
  assert (∀ out1, resize_out_tensor self mat2 out = Returned out1 →
                  same_dtype3 self mat2 out1) as Hsame.
  { intros out1 Hr.
    destruct (resize_out_tensor_returned _ _ _ _ Hr) as (_ & Hst & _).
    split; [done|]. by rewrite Hst. }
  split.
  - intros Hn. pose proof (switch_case_unsupported _ Hn) as Hsw. split.
    + intros out2 Hb. pose proof (bmm_out_cases ctx self mat2 out) as Hc.
      rewrite Hb in Hc. destruct Hc as (out1 & ctype & _ & _ & _ & Hsw' & _).
      congruence.
    + intros out1 Hr Hc.
      rewrite (bmm_out_dispatch _ _ _ _ _ Hr Hc (Hsame _ Hr)). by rewrite Hsw.
  - intros Hsup.
    destruct (switch_case_supported _ Hsup) as (ctype & Hsw & Hin & Huniq).
    exists ctype. split_and!; [done|done|].
    intros out1 Hr Hc.
    rewrite (bmm_out_dispatch _ _ _ _ _ Hr Hc (Hsame _ Hr)). by rewrite Hsw.
Qed.

(** Claim C8, on 1x1x1 tensors of type [Bool]. *)
Lemma bmm_out_dispatches_on_dtype_witness :
  same_dtype3 bool_tensor bool_tensor bool_tensor ∧
  ¬ supported (scalar_type bool_tensor) ∧
  bmm_out tt bool_tensor bool_tensor bool_tensor
    = Aborted UnhandledDtype bool_tensor.
Proof.
  assert (same_dtype3 bool_tensor bool_tensor bool_tensor) as Hd
    by (split; reflexivity).
  assert (¬ supported (scalar_type bool_tensor)) as Hn
    by (unfold supported; compute_done).
  split_and!; [exact Hd|exact Hn|].
  refine (proj2 (proj1 (bmm_out_dispatches_on_dtype tt bool_tensor
                          bool_tensor bool_tensor Hd) Hn) bool_tensor _ _);
    reflexivity.
Defined.

(** Claim C10 as stated fails for an [out] whose rank is not that of
    [self]: the resolver keeps the rank of [out]; here it has nothing to
    change, and the validator then fails the check of the rank of [out],
    although [self] and [mat2] agree in rank and in batch count. *)
Lemma check_bmm_out_args_out_rank_counterexample :
  resize_out_tensor unit_tensor unit_tensor rank2_unit_out
    = Returned rank2_unit_out ∧
  check_bmm_out_args unit_tensor unit_tensor rank2_unit_out
    = Aborted SelfOutDim rank2_unit_out ∧
  dim unit_tensor = 3 ∧
  size unit_tensor 0 = Some 1.
Proof. split_and!; reflexivity. Qed.

(** Claim C10, as amended: after a successful resize the three checks of
    the extents of [out] cannot fail.  For tensors of rank 3 the resized
    [out] has the batch count and the rows of [self] and the columns of
    [mat2]; a validation failure after a successful resize is a failure of
    a rank check or of a batch count check on [self] and [mat2]; and when
    [out] has the rank of [self] it is a failure of a check on [self] and
    [mat2] alone. *)
Theorem check_bmm_out_args_after_resize self mat2 out out1 :
  resize_out_tensor self mat2 out = Returned out1 →
  (dim self = 3 → dim mat2 = 3 → dim out = 3 →
     size self 0 = size out1 0 ∧ size self 1 = size out1 1 ∧
     size mat2 2 = size out1 2) ∧
  (∀ c t, check_bmm_out_args self mat2 out1 = Aborted c t →
     c ∈ [SelfMat2Dim; SelfOutDim; SelfDimNot3;
          BatchNegative; SelfMat2Batch] ∧
     (dim out = dim self →
      c ∈ [SelfMat2Dim; SelfDimNot3; BatchNegative; SelfMat2Batch])).
Proof.
  intros Hr.
  destruct (resize_out_tensor_returned _ _ _ _ Hr) as (Hdim & _ & _).
  assert (dim self = 3 → dim mat2 = 3 → dim out = 3 →
          ∃ b m n b' n' p, sizes self = [b; m; n] ∧
            sizes mat2 = [b'; n'; p] ∧ sizes out1 = [b; m; p]) as H3.
  { intros Hs Hm Ho.
    apply dim_rank3 in Hs as (b & m & n & Hs).
    apply dim_rank3 in Hm as (b' & n' & p & Hm).
    destruct (size_rank3 _ _ _ _ Hm) as (_ & _ & Hp).
    destruct (resize_out_tensor_rank3_returned _ _ _ _ _ _ _ _ Hs Hp Ho Hr)
      as (Hs1 & _).
    by exists b, m, n, b', n', p. }
  split.
  - intros Hs Hm Ho.
    destruct (H3 Hs Hm Ho) as (b & m & n & b' & n' & p & Hss & Hsm & Hs1).
    destruct (size_rank3 _ _ _ _ Hss) as (-> & -> & _).
    destruct (size_rank3 _ _ _ _ Hsm) as (_ & _ & ->).
    by destruct (size_rank3 _ _ _ _ Hs1) as (-> & -> & ->).
  - intros c t Hc.
    destruct (decide (dim self = 3 ∧ dim mat2 = 3 ∧ dim out1 = 3))
      as [(Hs & Hm & Ho)|Hrank].
    + rewrite Hdim in Ho.
      destruct (H3 Hs Hm Ho) as (b & m & n & b' & n' & p & Hss & Hsm & Hs1).
      rewrite (check_bmm_out_args_rank3 _ _ _ _ _ _ _ _ _ _ _ _ Hss Hsm Hs1)
        in Hc.
      repeat case_decide; simplify_eq; split; intros; repeat constructor.
    + destruct (check_bmm_out_args_rank _ _ _ Hrank)
        as (c' & Hc' & Hwhich).
      rewrite Hc' in Hc. simplify_eq.
      destruct Hwhich as [[-> _]|[[-> Hne]|[-> _]]];
        split; intros; try (repeat constructor); congruence.
Qed.

(** Claim C10, on inputs whose batch counts differ: the resize succeeds
    and the validator fails the batch count check on [self] and [mat2]. *)
Lemma check_bmm_out_args_after_resize_witness :
  resize_out_tensor unit_tensor batch2_mat2 (out_holding 7)
    = Returned (out_holding 7) ∧
  check_bmm_out_args unit_tensor batch2_mat2 (out_holding 7)
    = Aborted SelfMat2Batch (out_holding 7) ∧
  SelfMat2Batch ∈ [SelfMat2Dim; SelfOutDim; SelfDimNot3;
                   BatchNegative; SelfMat2Batch].
Proof.
  split_and!; [reflexivity|reflexivity|].
  refine (proj1 (proj2 (check_bmm_out_args_after_resize unit_tensor
                   batch2_mat2 (out_holding 7) (out_holding 7) _)
                   SelfMat2Batch (out_holding 7) _)); reflexivity.
Defined.



(** Claim C9 as stated fails when the inner dimension is zero: the same
    well-formed inputs and two correctly shaped outputs that differ only
    in the value they hold give two different results. *)
Lemma bmm_out_prior_contents_counterexample :
  tensor_ok zero_inner_self ∧ tensor_ok zero_inner_mat2 ∧
  tensor_ok (out_holding 5) ∧ tensor_ok (out_holding 7) ∧
  sizes (out_holding 5) = sizes (out_holding 7) ∧
  bmm_out tt zero_inner_self zero_inner_mat2 (out_holding 5)
    = Returned (out_holding 5) ∧
  bmm_out tt zero_inner_self zero_inner_mat2 (out_holding 7)
    = Returned (out_holding 7) ∧
  data (out_holding 5) ≠ data (out_holding 7).
Proof.
  split_and!; try reflexivity; try compute_done. discriminate.
Qed.

Lemma with_data_data t : with_data t (data t) = t.
Proof. by destruct t. Qed.

(** Claim C9, as amended: for well-formed [self] of shape
    [(b, rows, inner)] and [mat2] of shape [(b, inner, cols)], a second
    call on the output of a call that returned gives the same output; and
    when [inner] is positive or the output has no element, a call on that
    output with any other contents gives it as well. *)
Theorem bmm_out_idempotent ctx self mat2 out out2 b rows inner cols :
  tensor_ok self → sizes self = [b; rows; inner] →
  tensor_ok mat2 → sizes mat2 = [b; inner; cols] →
  bmm_out ctx self mat2 out = Returned out2 → tensor_ok out2 →
  bmm_out ctx self mat2 out2 = Returned out2 ∧
  (0 < inner ∨ numel out2 = 0 →
   ∀ prior, length prior = length (data out2) →
     bmm_out ctx self mat2 (with_data out2 prior) = Returned out2).
Proof.
  intros Hself Hss Hmat2 Hsm Hb Hout2.
  pose proof (bmm_out_cases ctx self mat2 out) as Hcases.
  rewrite Hb in Hcases.
  destruct Hcases as (out1 & ctype & Hr & Hc & [Hd1 Hd2] & Hsw & Hk).
  destruct (check_bmm_out_args_returned _ _ _ Hc)
    as (b0 & m0 & n0 & n0' & p0 & Hss' & Hsm' & Hs1 & Hb0).
  rewrite Hss in Hss'. rewrite Hsm in Hsm'. simplify_eq.
  destruct (bmm_kernel_handle _ _ _ _ _ Hk) as [Hout2eq Hlen].
  assert (sizes out2 = [b0; m0; p0]) as Hs2 by (by rewrite Hout2eq).
  assert (scalar_type out2 = scalar_type out1) as Hst2 by (by rewrite Hout2eq).
  destruct (size_rank3 _ _ _ _ Hsm) as (_ & _ & Hp).
  (* a call on a tensor of the shape of [out2] *)
  assert (∀ t, sizes t = [b0; m0; p0] → scalar_type t = scalar_type out1 →
            bmm_out ctx self mat2 t = defined (bmm_kernel ctype self mat2 t))
    as Hcall.
  { intros t Hst Hdt.
    assert (dim t = 3) as Hdim by (unfold dim; by rewrite Hst).
    assert (resize_out_tensor self mat2 t = Returned t) as Hrt.
    { rewrite (resize_out_tensor_rank3_out _ _ _ _ _ _ _ Hss Hp Hdim).
      unfold resize_tensor. by rewrite decide_True. }
    destruct (bmm_out_valid ctx self mat2 t t _ _ _ _ _ Hss Hsm Hb0 Hdim)
      as [_ ->]; [|done|by rewrite Hsw].
    split; [done|]. by rewrite Hdt. }
  assert (tensor_ok out1) as Hout1.
  { destruct Hout2 as (H1 & H2 & H3). unfold tensor_ok, numel in *.
    rewrite Hs2 in *. rewrite Hs1. split_and!; [done| |done].
    by rewrite <- Hlen. }
  assert (∀ t, sizes t = [b0; m0; p0] → numel t = numel out1) as Hnum.
  { intros t Ht. unfold numel. by rewrite Ht, Hs1. }
  destruct (decide (numel self = 0 ∨ numel mat2 = 0 ∨ numel out1 = 0))
    as [Hguard|Hguard].
  - (* the kernel returned at once *)
    rewrite bmm_kernel_empty in Hk by done.
    assert (out1 = out2) as -> by congruence. split.
    + rewrite Hcall by done. by rewrite bmm_kernel_empty.
    + intros Hinner prior Hprior.
      assert (numel out2 = 0) as Hz.
      { destruct Hinner as [Hinner|?]; [|done].
        destruct (tensor_ok_rank3 _ _ _ _ Hself Hss) as ((? & ? & ?) & _).
        destruct (tensor_ok_rank3 _ _ _ _ Hmat2 Hsm) as ((_ & _ & ?) & _).
        rewrite (numel_rank3 _ _ _ _ Hss), (numel_rank3 _ _ _ _ Hsm),
          (numel_rank3 _ _ _ _ Hs1) in *.
        destruct Hguard as [Hg|[Hg|Hg]]; [| |done]; nia. }
      destruct Hout2 as (_ & Hl & _). rewrite Hz in Hl.
      destruct (data out2) eqn:Hdata; [|done].
      destruct prior; [|done]. rewrite <- Hdata, with_data_data.
      rewrite Hcall by done. by rewrite bmm_kernel_empty.
  - (* the kernel computed the product *)
    rewrite (bmm_kernel_product _ self mat2 out1 b0 m0 n0 p0) in Hk
      by tauto.
    assert (out2 = with_data out1 (product_data ctype self mat2 b0 m0 n0 p0))
      as Hprod by congruence.
    assert (∀ t, tensor_ok t → sizes t = [b0; m0; p0] →
              scalar_type t = scalar_type out1 →
              resize_storage t = resize_storage out1 →
              bmm_out ctx self mat2 t = Returned out2) as Hany.
    { intros t Ht Hst Hdt Hrs. rewrite Hcall by done.
      rewrite (bmm_kernel_product _ self mat2 t b0 m0 n0 p0); try tauto.
      - cbn [defined]. f_equal. rewrite Hprod. unfold with_data.
        by rewrite Hst, Hdt, Hrs, Hs1.
      - rewrite (Hnum t Hst). tauto. }
    split.
    + apply Hany; [done|done|done|]. by rewrite Hprod.
    + intros _ prior Hprior. apply Hany; [|done|done|by rewrite Hprod].
      destruct Hout2 as (H1 & H2 & H3). split_and!; [done| |done].
      cbn [data with_data] in *. by rewrite Hprior.
Qed.

(** Claim C9, on the scenario of the specification: a second call on its
    output, and a call on that output filled with another value, give the
    same output. *)
Lemma bmm_out_idempotent_witness :
  bmm_out tt (scenario_self int32_t Int) (scenario_mat2 int32_t Int)
    scenario_result = Returned scenario_result ∧
  bmm_out tt (scenario_self int32_t Int) (scenario_mat2 int32_t Int)
    (with_data scenario_result (replicate 8 (IntVal 9)))
    = Returned scenario_result.
Proof.
  destruct (bmm_out_idempotent tt
              (scenario_self int32_t Int) (scenario_mat2 int32_t Int)
              (scenario_out int32_t Int) scenario_result 2 2 3 2)
    as [H1 H2].
  - compute_done.
  - reflexivity.
  - compute_done.
  - reflexivity.
  - vm_compute. reflexivity.
  - compute_done.
  - split; [exact H1|]. apply H2; [left; lia|reflexivity].
Defined.

(** * Further properties *)

(** ** The kernel on any buffers *)

Lemma mul64_Some a b r : mul64 a b = Some r → r = a * b.
Proof. unfold mul64. case_decide; congruence. Qed.

Lemma load_default buf i :
  0 ≤ i < Z.of_nat (length buf) →
  load buf i = Some (default (IntVal 0) (load buf i)).
Proof. intros H. by destruct (load_in_range _ _ H) as [v ->]. Qed.

Lemma load_out_of_range buf i :
  Z.of_nat (length buf) ≤ i → load buf i = None.
Proof.
  intros H. unfold load. case_decide; [|done].
  apply lookup_ge_None. lia.
Qed.

(** A loop one of whose iterations fails from every state fails. *)
Lemma for_loop_fails {St : Type} count i (body : Z → St → option St) s j :
  i ≤ j < i + Z.of_nat count → (∀ t, body j t = None) →
  for_loop count i body s = None.
Proof.
  revert i s. induction count as [|count IH]; intros i s Hj Hfail; [lia|].
  cbn [for_loop]. destruct (decide (j = i)) as [->|Hne].
  - by rewrite Hfail.
  - destruct (body i s); [|done]. apply IH; [lia|done].
Qed.

Section KernelAnyBuffers.
Variable CTYPE : CType.

Lemma length_kernel_data x y b m n p :
  0 ≤ b → 0 ≤ m → 0 ≤ p →
  Z.of_nat (length (kernel_data CTYPE x y b m n p)) = b * m * p.
Proof.
  intros Hb Hm Hp. unfold kernel_data.
  rewrite (length_concat_uniform (Z.to_nat (m * p))).
  - rewrite length_fmap, length_seqZ. nia.
  - apply Forall_fmap, Forall_forall. intros j _. cbn.
    apply Nat2Z.inj. rewrite length_matrix_of by lia. nia.
Qed.

Lemma kernel_data_lookup x y b m n p i r c :
  0 ≤ i < b → 0 ≤ r < m → 0 ≤ c < p →
  load (kernel_data CTYPE x y b m n p) ((i * m + r) * p + c) =
  Some (kernel_entry CTYPE x y m n p i r c).
Proof.
  intros Hi Hr Hc. unfold load, kernel_data.
  pose proof (flat_index_bound b m p i r c Hi Hr Hc) as Hidx.
  rewrite decide_True by lia.
  assert (0 ≤ i * (m * p) ∧ 0 ≤ r * p + c ∧ 0 ≤ m * p) as (? & ? & ?)
    by nia.
  replace (Z.to_nat ((i * m + r) * p + c))
    with (Z.to_nat i * Z.to_nat (m * p) + Z.to_nat (r * p + c))%nat by nia.
  eapply lookup_concat_chunks.
  - apply Forall_fmap, Forall_forall. intros j _. cbn.
    apply Nat2Z.inj. rewrite length_matrix_of by lia. nia.
  - by apply (lookup_fmap_seqZ
                (λ i, matrix_of (λ r c, kernel_entry CTYPE x y m n p i r c)
                        m p)).
  - by apply matrix_of_lookup.
Qed.

Lemma bmm_batch_step_any x y b m n p i pre old post :
  0 ≤ b ≤ int_max → 0 ≤ m ≤ int_max → 0 ≤ n ≤ int_max → 0 ≤ p ≤ int_max →
  b * m * n ≤ Z.of_nat (length x) → b * m * n ≤ int64_max →
  b * n * p ≤ Z.of_nat (length y) → b * n * p ≤ int64_max →
  b * m * p ≤ int64_max →
  0 ≤ i < b →
  Z.of_nat (length pre) = i * (m * p) →
  Z.of_nat (length old) = m * p →
  bmm_batch_step CTYPE x y m n p i (pre ++ old ++ post) =
  Some (pre ++ matrix_of (λ r c, kernel_entry CTYPE x y m n p i r c) m p
            ++ post).
Proof.
  intros Hb Hm Hn Hp Hlx Hnx Hly Hny Hnz Hi Hpre Hold.
  unfold int64_max, int_max in *.
  unfold bmm_batch_step.
  rewrite (mul64_in_range i m) by (unfold int64_min, int64_max; nia).
  cbn [mbind option_bind].
  rewrite (mul64_in_range (i * m) n) by (unfold int64_min, int64_max; nia).
  cbn [mbind option_bind].
  rewrite (mul64_in_range i n) by (unfold int64_min, int64_max; nia).
  cbn [mbind option_bind].
  rewrite (mul64_in_range (i * n) p) by (unfold int64_min, int64_max; nia).
  cbn [mbind option_bind].
  rewrite (mul64_in_range (i * m) p) by (unfold int64_min, int64_max; nia).
  cbn [mbind option_bind].
  rewrite (vec_matmul_fill _ _ _ _ _ m n p
             (λ r c, kernel_entry CTYPE x y m n p i r c));
    [| lia | lia | | lia | lia].
  - cbn [mbind option_bind].
    rewrite decide_True by (unfold int_max; lia). done.
  - intros r c Hr Hc. unfold kernel_entry. apply dot_correct.
    intros k Hk. eexists _, _. split_and!; [| |done].
    + replace (i * m * n + (r * n + k)) with ((i * m + r) * n + k) by lia.
      apply load_default.
      pose proof (flat_index_bound b m n i r k Hi Hr Hk). lia.
    + replace (i * n * p + (k * p + c)) with ((i * n + k) * p + c) by lia.
      apply load_default.
      pose proof (flat_index_bound b n p i k c Hi Hk Hc). lia.
Qed.

(** Past its early return, with buffers long enough for the sizes it
    reads, the kernel overwrites the first [b * m * p] elements of the
    storage of [out] and nothing else. *)
Lemma bmm_kernel_any self mat2 out b m n p old post :
  sizes self = [b; m; n] → size mat2 2 = Some p →
  0 ≤ b ≤ int_max → 0 ≤ m ≤ int_max → 0 ≤ n ≤ int_max → 0 ≤ p ≤ int_max →
  b * m * n ≤ Z.of_nat (length (data self)) → b * m * n ≤ int64_max →
  b * n * p ≤ Z.of_nat (length (data mat2)) → b * n * p ≤ int64_max →
  b * m * p ≤ int64_max →
  data out = old ++ post → Z.of_nat (length old) = b * m * p →
  numel self ≠ 0 → numel mat2 ≠ 0 → numel out ≠ 0 →
  bmm_kernel CTYPE self mat2 out =
  Some (with_data out
          (kernel_data CTYPE (data self) (data mat2) b m n p ++ post)).
Proof.
  intros Hss Hp Hb Hm Hn Hpp Hlx Hnx Hly Hny Hnz Hdata Hold Hn1 Hn2 Hn3.
  unfold bmm_kernel. rewrite decide_False by tauto.
  destruct (size_rank3 _ _ _ _ Hss) as (-> & -> & ->). rewrite Hp.
  cbn [mbind option_bind]. rewrite Hdata.
  rewrite <- (app_nil_l (old ++ post)).
  rewrite (for_loop_fill (Z.to_nat (m * p)) 0 _
             (λ i, matrix_of
                     (λ r c, kernel_entry CTYPE (data self) (data mat2)
                               m n p i r c) m p)).
  - cbn [mbind option_bind]. unfold kernel_data.
    rewrite Z2Nat.id by lia. done.
  - intros i _. apply Nat2Z.inj. rewrite length_matrix_of by lia. nia.
  - intros i pre old' post' Hi Hpre Hold'.
    apply (bmm_batch_step_any _ _ b); try done; lia.
  - done.
  - apply Nat2Z.inj. rewrite Hold. nia.
Qed.

(** With buffers shorter than the sizes say, the last read of the kernel
    is outside [y]. *)
Lemma bmm_batch_step_overrun x y b m n p z :
  0 < b → 0 < m → 0 < n → 0 < p →
  Z.of_nat (length y) < b * n * p →
  bmm_batch_step CTYPE x y m n p (b - 1) z = None.
Proof.
  intros Hb Hm Hn Hp Hly. unfold bmm_batch_step.
  destruct (mul64 (b - 1) m) as [im|] eqn:E1; [|done].
  cbn [mbind option_bind].
  destruct (mul64 im n) as [xo|] eqn:E2; [|done]. cbn [mbind option_bind].
  destruct (mul64 (b - 1) n) as [i_n|] eqn:E3; [|done].
  cbn [mbind option_bind].
  destruct (mul64 i_n p) as [yo|] eqn:E4; [|done]. cbn [mbind option_bind].
  destruct (mul64 im p) as [zo|] eqn:E5; [|done]. cbn [mbind option_bind].
  apply mul64_Some in E3, E4. subst i_n yo.
  assert (vec_matmul CTYPE z zo x xo y ((b - 1) * n * p) m n p = None)
    as ->; [|done].
  unfold vec_matmul. apply (for_loop_fails _ _ _ _ (m - 1)); [lia|].
  intros t. apply (for_loop_fails _ _ _ _ (p - 1)); [lia|].
  intros u.
  assert (dot CTYPE x xo y ((b - 1) * n * p) n p (m - 1) (p - 1) = None)
    as ->; [|done].
  unfold dot. apply (for_loop_fails _ _ _ _ (n - 1)); [lia|].
  intros sum. destruct (load x _); [|done]. cbn [mbind option_bind].
  rewrite load_out_of_range; [done|]. nia.
Qed.
End KernelAnyBuffers.

Lemma product_pos b m p :
  0 ≤ b → 0 ≤ m → 0 ≤ p → 0 < b * m * p → 0 < b ∧ 0 < m ∧ 0 < p.
Proof.
  intros Hb Hm Hp H.
  destruct (decide (b = 0)) as [->|]; [lia|].
  destruct (decide (m = 0)) as [->|]; [lia|].
  destruct (decide (p = 0)) as [->|]; [lia|]. lia.
Qed.

Lemma sum_below_ext c n f g :
  (∀ k, 0 ≤ k < Z.of_nat n → f k = g k) →
  sum_below c n f = sum_below c n g.
Proof.
  induction n as [|n IH]; intros H; [done|].
  cbn [sum_below]. rewrite IH, H by (try intros; try apply H; lia). done.
Qed.

Lemma kernel_entry_bmm_entry c self mat2 b m n b' p i r col :
  sizes self = [b; m; n] → sizes mat2 = [b'; n; p] →
  kernel_entry c (data self) (data mat2) m n p i r col =
  bmm_entry c self mat2 n i r col.
Proof.
  intros Hs Hm. unfold kernel_entry, bmm_entry. apply sum_below_ext.
  intros k _. unfold elem.
  by rewrite (entry_rank3 _ _ _ _ _ _ _ Hs), (entry_rank3 _ _ _ _ _ _ _ Hm).
Qed.

(** Property X1: whatever its inputs, when the kernel returns it has changed
    nothing of [out] but element data: the element type, the sizes, the
    resize capability and the length of the storage are those of [out]. *)
Theorem bmm_kernel_keeps_handle ctype self mat2 out out' :
  bmm_kernel ctype self mat2 out = Some out' →
  scalar_type out' = scalar_type out ∧
  sizes out' = sizes out ∧
  resize_storage out' = resize_storage out ∧
  length (data out') = length (data out).
Proof.
  intros Hk. destruct (bmm_kernel_handle _ _ _ _ _ Hk) as [Heq Hlen].
  rewrite Heq. done.
Qed.

(** Property X1, on the kernel run of the 1x2 by 3x1 call. *)
Lemma bmm_kernel_keeps_handle_witness :
  scalar_type (out_holding 31) = scalar_type (out_holding 0) ∧
  sizes (out_holding 31) = sizes (out_holding 0) ∧
  resize_storage (out_holding 31) = resize_storage (out_holding 0) ∧
  length (data (out_holding 31)) = length (data (out_holding 0)).
Proof.
  apply (bmm_kernel_keeps_handle int32_t inner2_self inner3_mat2).
  reflexivity.
Defined.

(** Property X2: on well-formed [self] of shape [(b, m, n)] and [mat2] of shape
    [(b, n, p)], none of them empty, the kernel writes the product into
    the first [b * m * p] elements of the storage of [out] and leaves
    every element after them as it was. *)
Theorem bmm_kernel_writes_prefix_only
    ctype self mat2 out b m n p old post :
  tensor_ok self → sizes self = [b; m; n] →
  tensor_ok mat2 → sizes mat2 = [b; n; p] →
  sizes out = [b; m; p] →
  data out = old ++ post → Z.of_nat (length old) = b * m * p →
  0 < b * m * p → b * m * p ≤ int64_max → 0 < n →
  ∃ written,
    bmm_kernel ctype self mat2 out = Some (with_data out (written ++ post)) ∧
    length written = length old ∧
    ∀ i r c, 0 ≤ i < b → 0 ≤ r < m → 0 ≤ c < p →
      load written ((i * m + r) * p + c)
      = Some (bmm_entry ctype self mat2 n i r c).
Proof.
  intros Hself Hss Hmat2 Hsm Hso Hdata Hold Hpos Hnz Hn.
  destruct (tensor_ok_rank3 _ _ _ _ Hself Hss)
    as ((Hb & Hm & Hn') & Hlx & Hnx).
  destruct (tensor_ok_rank3 _ _ _ _ Hmat2 Hsm)
    as ((_ & _ & Hp) & Hly & Hny).
  destruct (size_rank3 _ _ _ _ Hsm) as (_ & _ & Hp2).
  assert (0 < b ∧ 0 < m ∧ 0 < p) as (? & ? & ?)
    by (apply product_pos; lia).
  exists (kernel_data ctype (data self) (data mat2) b m n p).
  split_and!.
  - apply (bmm_kernel_any _ _ _ _ b m n p old post); try done; try lia.
    + rewrite (numel_rank3 _ _ _ _ Hss). nia.
    + rewrite (numel_rank3 _ _ _ _ Hsm). nia.
    + rewrite (numel_rank3 _ _ _ _ Hso). nia.
  - apply Nat2Z.inj. rewrite length_kernel_data by lia. lia.
  - intros i r c Hi Hr Hc. rewrite kernel_data_lookup by done.
    by rewrite (kernel_entry_bmm_entry _ _ _ _ _ _ _ _ _ _ _ Hss Hsm).
Qed.

(** Property X2, on an output whose storage holds two elements more than
    its shape: they are still 8 and 9. *)
Lemma bmm_kernel_writes_prefix_only_witness :
  ∃ written,
    bmm_kernel int32_t unit_tensor unit_tensor long_out
    = Some (with_data long_out (written ++ [IntVal 8; IntVal 9])) ∧
    length written = length [IntVal 7] ∧
    ∀ i r c, 0 ≤ i < 1 → 0 ≤ r < 1 → 0 ≤ c < 1 →
      load written ((i * 1 + r) * 1 + c)
      = Some (bmm_entry int32_t unit_tensor unit_tensor 1 i r c).
Proof.
  apply (bmm_kernel_writes_prefix_only int32_t unit_tensor unit_tensor
           long_out 1 1 1 1 [IntVal 7] [IntVal 8; IntVal 9]);
    try reflexivity; try compute_done; try lia.
Defined.

(** ** Exact integer results *)

Lemma int_wrap_representable c z :
  is_floating c = false → representable c z → int_wrap c z = z.
Proof.
  unfold representable.
  destruct c; cbn [is_floating int_wrap int_lowest int_highest];
    try done; intros _ Hz; unfold wrap_unsigned, wrap_signed;
    rewrite Z.mod_small; lia.
Qed.

Lemma sum_below_exact c n (x y : Z → scalar) :
  is_floating c = false →
  (∀ k, 0 ≤ k < Z.of_nat n → representable c (as_int (x k) * as_int (y k))) →
  (∀ j, (j ≤ n)%nat →
        representable c (sum_Z j (λ k, as_int (x k) * as_int (y k)))) →
  sum_below c n (λ k, c_mul c (x k) (y k)) =
  IntVal (sum_Z n (λ k, as_int (x k) * as_int (y k))).
Proof.
  intros Hf. induction n as [|n IH]; intros Hprod Hsum.
  - cbn. unfold c_zero. by rewrite Hf.
  - cbn [sum_below sum_Z]. rewrite IH.
    + unfold c_add, c_mul. rewrite Hf. cbn [as_int].
      rewrite (int_wrap_representable c (_ * _)) by (try done; apply Hprod; lia).
      rewrite int_wrap_representable; [done|done|].
      apply (Hsum (S n)). lia.
    + intros k Hk. apply Hprod. lia.
    + intros j Hj. apply Hsum. lia.
Qed.

(** Property X3: at an integer element type, when every product of an
    entry of [self] with the matching entry of [mat2] and every partial
    sum of these products is a value of the type, each entry the kernel
    writes is the exact sum of the products: the accumulation in the
    element type loses nothing as long as nothing overflows. *)
Theorem bmm_kernel_int_exact ctype self mat2 out b m n p :
  is_floating ctype = false →
  tensor_ok self → sizes self = [b; m; n] →
  tensor_ok mat2 → sizes mat2 = [b; n; p] →
  tensor_ok out → sizes out = [b; m; p] →
  0 < b * m * p → 0 < n →
  (∀ i r c k, 0 ≤ i < b → 0 ≤ r < m → 0 ≤ c < p → 0 ≤ k < n →
     representable ctype
       (as_int (elem self i r k) * as_int (elem mat2 i k c))) →
  (∀ i r c j, 0 ≤ i < b → 0 ≤ r < m → 0 ≤ c < p → (j ≤ Z.to_nat n)%nat →
     representable ctype
       (sum_Z j (λ k, as_int (elem self i r k) * as_int (elem mat2 i k c)))) →
  ∃ out',
    bmm_kernel ctype self mat2 out = Some out' ∧
    ∀ i r c, 0 ≤ i < b → 0 ≤ r < m → 0 ≤ c < p →
      entry out' i r c
      = Some (IntVal
                (sum_Z (Z.to_nat n)
                   (λ k, as_int (elem self i r k) * as_int (elem mat2 i k c)))).
Proof.
  intros Hf Hself Hss Hmat2 Hsm Hout Hso Hpos Hn Hprod Hsum.
  destruct (tensor_ok_rank3 _ _ _ _ Hself Hss) as ((Hb & Hm & Hn') & _).
  destruct (tensor_ok_rank3 _ _ _ _ Hmat2 Hsm) as ((_ & _ & Hp) & _).
  assert (0 < b ∧ 0 < m ∧ 0 < p) as (? & ? & ?)
    by (apply product_pos; lia).
  eexists. split.
  - apply (bmm_kernel_product _ self mat2 out b m n p); try done.
    + rewrite (numel_rank3 _ _ _ _ Hss). nia.
    + rewrite (numel_rank3 _ _ _ _ Hsm). nia.
    + rewrite (numel_rank3 _ _ _ _ Hso). nia.
  - intros i r c Hi Hr Hc.
    rewrite (entry_rank3 _ b m p) by done. cbn [data with_data].
    rewrite product_data_lookup by done. f_equal.
    unfold bmm_entry. apply sum_below_exact; [done| |].
    + intros k Hk. apply Hprod; try done. lia.
    + intros j Hj. by apply Hsum.
Qed.

(** Property X3, at [int32_t]: 2 * 5 + 3 * 7 + 4 * 11. *)
Lemma bmm_kernel_int_exact_witness :
  ∃ out',
    bmm_kernel int32_t inner3_self inner3_mat2 unit_tensor = Some out' ∧
    ∀ i r c, 0 ≤ i < 1 → 0 ≤ r < 1 → 0 ≤ c < 1 →
      entry out' i r c
      = Some (IntVal
                (sum_Z (Z.to_nat 3)
                   (λ k, as_int (elem inner3_self i r k)
                         * as_int (elem inner3_mat2 i k c)))).
Proof.
  apply (bmm_kernel_int_exact int32_t inner3_self inner3_mat2 unit_tensor
           1 1 3 1).
  - reflexivity.
  - compute_done.
  - reflexivity.
  - compute_done.
  - reflexivity.
  - compute_done.
  - reflexivity.
  - lia.
  - lia.
  - intros i r c k Hi Hr Hc Hk.
    assert (i = 0) as -> by lia. assert (r = 0) as -> by lia.
    assert (c = 0) as -> by lia.
    assert (k = 0 ∨ k = 1 ∨ k = 2) as [-> | [-> | ->]] by lia; compute_done.
  - intros i r c j Hi Hr Hc Hj.
    assert (i = 0) as -> by lia. assert (r = 0) as -> by lia.
    assert (c = 0) as -> by lia.
    destruct j as [|[|[|[|j]]]]; [compute_done..|].
    exfalso. revert Hj. change (Z.to_nat 3) with 3%nat. lia.
Defined.

(** ** More on the validator *)

(** Property X4: the validator returns exactly when the three tensors have rank 3,
    the batch count of [self] is not negative and is that of [mat2] and of
    [out], and [out] has the rows of [self] and the columns of [mat2]; the
    inner dimensions play no part. *)
Theorem check_bmm_out_args_returns_iff self mat2 out :
  check_bmm_out_args self mat2 out = Returned tt ↔
  ∃ b m n n' p,
    sizes self = [b; m; n] ∧ sizes mat2 = [b; n'; p] ∧
    sizes out = [b; m; p] ∧ 0 ≤ b.
Proof.
  split; [apply check_bmm_out_args_returned|].
  intros (b & m & n & n' & p & Hs & Hm & Ho & Hb).
  rewrite (check_bmm_out_args_rank3 _ _ _ _ _ _ _ _ _ _ _ _ Hs Hm Ho).
  by rewrite decide_False, !decide_False by (try lia; by intros []).
Qed.

(** Property X5: the validator never reads a size outside the dimensions of a
    tensor: its outcome is always defined.  When it fails, the check is one
    of its eight and [out] is handed back as it was; and when the tensors
    are not all of rank 3 the failure is one of the three rank checks,
    whatever the sizes are. *)
Theorem check_bmm_out_args_is_safe self mat2 out :
  check_bmm_out_args self mat2 out ≠ Undefined ∧
  (∀ c t, check_bmm_out_args self mat2 out = Aborted c t →
     t = out ∧ c ∈ validator_checks) ∧
  (¬ (dim self = 3 ∧ dim mat2 = 3 ∧ dim out = 3) →
   ∃ c, check_bmm_out_args self mat2 out = Aborted c out ∧
        c ∈ [SelfMat2Dim; SelfOutDim; SelfDimNot3]).
Proof.
  split_and!.
  - by destruct (check_bmm_out_args_outcome self mat2 out)
      as [->|(c & -> & _)].
  - intros c t Hc.
    destruct (check_bmm_out_args_outcome self mat2 out)
      as [Hr|(c' & Ha & Hin)]; [congruence|].
    rewrite Ha in Hc. by simplify_eq.
  - intros Hr. destruct (check_bmm_out_args_rank _ _ _ Hr)
      as (c & Hc & [[-> _]|[[-> _]|[-> _]]]);
      (eexists; split; [done|repeat constructor]).
Qed.

(** Property X5 at a rank-2 [out] beside two rank-3 inputs: the validator
    fails on a rank check and hands [rank2_unit_out] back. *)
Lemma check_bmm_out_args_is_safe_witness :
  ¬ (dim unit_tensor = 3 ∧ dim unit_tensor = 3 ∧ dim rank2_unit_out = 3) ∧
  ∃ c, check_bmm_out_args unit_tensor unit_tensor rank2_unit_out
         = Aborted c rank2_unit_out ∧
       c ∈ [SelfMat2Dim; SelfOutDim; SelfDimNot3].
Proof.
  assert (Hr : ¬ (dim unit_tensor = 3 ∧ dim unit_tensor = 3
                  ∧ dim rank2_unit_out = 3)) by (by intros (_ & _ & [=])).
  split; [exact Hr|].
  exact (proj2 (proj2 (check_bmm_out_args_is_safe
                         unit_tensor unit_tensor rank2_unit_out)) Hr).
Defined.

(** ** More on the operator *)

Lemma switch_case_Some_elem cases st ctype :
  switch_case cases st = Some ctype → (ctype, st) ∈ cases.
Proof.
  induction cases as [|[c d] cases IH]; [done|]. cbn [switch_case].
  case_decide as Heq.
  - intros [= ->]. subst. left.
  - intros H. right. by apply IH.
Qed.

Lemma resize_out_tensor_capability self mat2 out out1 :
  resize_out_tensor self mat2 out = Returned out1 →
  resize_storage out1 = resize_storage out ∧
  (sizes out1 = sizes out → out1 = out).
Proof.
  intros Hr.
  destruct (resize_out_tensor_returned _ _ _ _ Hr)
    as (_ & _ & [->|(s & buf & Hne & _ & ->)]); [done|].
  split; [done|]. cbn. intros ->. done.
Qed.

(** After the resolver the validator cannot fail a check of an extent of
    [out]. *)
Lemma check_bmm_out_args_resolved self mat2 out out1 c t :
  resize_out_tensor self mat2 out = Returned out1 →
  check_bmm_out_args self mat2 out1 = Aborted c t →
  c ∈ [SelfMat2Dim; SelfOutDim; SelfDimNot3; BatchNegative; SelfMat2Batch].
Proof.
  intros Hr Hc.
  destruct (resize_out_tensor_returned _ _ _ _ Hr) as (Hdim & _ & _).
  destruct (decide (dim self = 3 ∧ dim mat2 = 3 ∧ dim out1 = 3))
    as [(Hs & Hm & Ho)|Hrank].
  - rewrite Hdim in Ho.
    apply dim_rank3 in Hs as (b & m & n & Hs).
    apply dim_rank3 in Hm as (b' & n' & p & Hm).
    destruct (size_rank3 _ _ _ _ Hm) as (_ & _ & Hp).
    destruct (resize_out_tensor_rank3_returned _ _ _ _ _ _ _ _ Hs Hp Ho Hr)
      as (Hs1 & _).
    rewrite (check_bmm_out_args_rank3 _ _ _ _ _ _ _ _ _ _ _ _ Hs Hm Hs1)
      in Hc.
    repeat case_decide; simplify_eq; repeat constructor.
  - destruct (check_bmm_out_args_rank _ _ _ Hrank) as (c' & Hc' & Hwhich).
    rewrite Hc' in Hc. simplify_eq.
    destruct Hwhich as [[-> _]|[[-> _]|[-> _]]]; repeat constructor.
Qed.

(** Property X6: what holds whenever a call returns: [self] and [mat2] have rank 3
    and one non-negative batch count, [out] has rank 3, the three tensors
    have one element type, which is supported, and the tensor returned has
    the shape [[b; m; p]], the element type and the resize capability of
    [out]. *)
Theorem bmm_out_returned ctx self mat2 out out2 :
  bmm_out ctx self mat2 out = Returned out2 →
  ∃ b m n n' p,
    sizes self = [b; m; n] ∧ sizes mat2 = [b; n'; p] ∧ 0 ≤ b ∧
    dim out = 3 ∧ sizes out2 = [b; m; p] ∧
    same_dtype3 self mat2 out ∧ supported (scalar_type self) ∧
    scalar_type out2 = scalar_type out ∧
    resize_storage out2 = resize_storage out.
Proof.
  intros Hb. pose proof (bmm_out_cases ctx self mat2 out) as Hcases.
  rewrite Hb in Hcases.
  destruct Hcases as (out1 & ctype & Hr & Hc & [Hd1 Hd2] & Hsw & Hk).
  destruct (check_bmm_out_args_returned _ _ _ Hc)
    as (b & m & n & n' & p & Hs & Hm & Hs1 & Hb0).
  destruct (resize_out_tensor_returned _ _ _ _ Hr) as (Hdim & Hst & _).
  destruct (resize_out_tensor_capability _ _ _ _ Hr) as [Hcap _].
  destruct (bmm_kernel_handle _ _ _ _ _ Hk) as [Heq _].
  exists b, m, n, n', p. split_and!; try done.
  - rewrite <- Hdim. unfold dim. by rewrite Hs1.
  - by rewrite Heq.
  - split; [done|]. by rewrite <- Hst.
  - apply switch_case_Some_elem in Hsw. unfold supported.
    apply list_elem_of_fmap. by exists (ctype, scalar_type self).
  - by rewrite Heq.
  - by rewrite Heq.
Qed.

(** Property X6, on the 1x2 by 3x1 call. *)
Lemma bmm_out_returned_witness :
  ∃ b m n n' p,
    sizes inner2_self = [b; m; n] ∧ sizes inner3_mat2 = [b; n'; p] ∧ 0 ≤ b ∧
    dim (out_holding 0) = 3 ∧ sizes (out_holding 31) = [b; m; p] ∧
    same_dtype3 inner2_self inner3_mat2 (out_holding 0) ∧
    supported (scalar_type inner2_self) ∧
    scalar_type (out_holding 31) = scalar_type (out_holding 0) ∧
    resize_storage (out_holding 31) = resize_storage (out_holding 0).
Proof.
  apply (bmm_out_returned tt inner2_self inner3_mat2 (out_holding 0)).
  reflexivity.
Defined.

(** Property X7: whatever its inputs, a call never fails one of the three checks of
    the extents of [out] ([SelfOutBatch], [Mat2OutCols], [SelfOutRows]):
    the resolver has made them hold before the validator runs. *)
Theorem bmm_out_never_fails_out_extents ctx self mat2 out c t :
  bmm_out ctx self mat2 out = Aborted c t →
  c ∉ [SelfOutBatch; Mat2OutCols; SelfOutRows].
Proof.
  intros Hb. pose proof (bmm_out_cases ctx self mat2 out) as Hcases.
  rewrite Hb in Hcases.
  assert (c ∈ [ResizeFailed; DtypeMismatch; UnhandledDtype; SelfMat2Dim;
               SelfOutDim; SelfDimNot3; BatchNegative; SelfMat2Batch])
    as Hin.
  { destruct Hcases as [(-> & _)|(Hr & [[_ Hc]|[(-> & _)|(-> & _)]])];
      [repeat constructor| |repeat constructor..].
    do 3 right. by apply (check_bmm_out_args_resolved _ _ _ _ _ _ Hr Hc). }
  intros Hout.
  repeat (apply elem_of_cons in Hout as [->|Hout];
          [repeat (apply elem_of_cons in Hin as [?|Hin]; [discriminate|]);
           by apply elem_of_nil in Hin|]).
  by apply elem_of_nil in Hout.
Qed.

(** Property X7, on a call whose batch counts differ. *)
Lemma bmm_out_never_fails_out_extents_witness :
  bmm_out tt unit_tensor batch2_mat2 (out_holding 7)
    = Aborted SelfMat2Batch (out_holding 7) ∧
  SelfMat2Batch ∉ [SelfOutBatch; Mat2OutCols; SelfOutRows].
Proof.
  assert (bmm_out tt unit_tensor batch2_mat2 (out_holding 7)
          = Aborted SelfMat2Batch (out_holding 7)) as H by reflexivity.
  split; [exact H|].
  exact (bmm_out_never_fails_out_extents _ _ _ _ _ _ H).
Defined.

(** Property X8: the outcome of a call on rank-3 tensors, in the order the source
    decides it: a failed resize to [[b; m; p]], a negative batch count, a
    batch count of [mat2] other than that of [self], element types that
    differ, an element type that is not supported, and else the kernel
    on the resized [out]. *)
Theorem bmm_out_rank3_outcome ctx self mat2 out b m n b' n' p :
  sizes self = [b; m; n] → sizes mat2 = [b'; n'; p] → dim out = 3 →
  bmm_out ctx self mat2 out =
  match resize_tensor out [b; m; p] with
  | (Ok, out1) =>
      if decide (b < 0) then Aborted BatchNegative out1
      else if decide (b ≠ b') then Aborted SelfMat2Batch out1
      else if decide (same_dtype3 self mat2 out)
      then match switch_case ET_FORALL_REAL_TYPES (scalar_type self) with
           | Some ctype => defined (bmm_kernel ctype self mat2 out1)
           | None => Aborted UnhandledDtype out1
           end
      else Aborted DtypeMismatch out1
  | (ResizeError, _) => Aborted ResizeFailed out
  end.
Proof.
  intros Hs Hm Ho. destruct (size_rank3 _ _ _ _ Hm) as (_ & _ & Hp).
  pose proof (resize_out_tensor_rank3_out _ _ _ _ _ _ _ Hs Hp Ho) as Hres.
  destruct (resize_tensor_cases out [b; m; p])
    as [[Heq Hc]|[(_ & _ & Hc)|(Hne & buf & Hbuf & Hc)]];
    rewrite Hc in Hres |- *; cbn in Hres.
  2: { unfold bmm_out. by rewrite Hres. }
  all: rewrite (bmm_out_resolved _ _ _ _ _ Hres).
  all: erewrite (check_bmm_out_args_rank3 _ _ _ _ _ _ _ _ _ _ _ _ Hs Hm);
    [|done].
  all: destruct (decide (b < 0)); [done|].
  all: destruct (decide (b ≠ b')); [done|].
  all: rewrite !decide_False by (by intros []).
  all: cbn [mbind Outcome_bind].
  all: unfold ET_CHECK_SAME_DTYPE3, ET_CHECK_MSG.
  all: destruct (decide (same_dtype3 self mat2 out)) as [Hd|Hd].
  all: try (by rewrite bool_decide_eq_true_2).
  all: by rewrite bool_decide_eq_false_2.
Qed.

(** Property X8, on a call whose batch counts differ. *)
Lemma bmm_out_rank3_outcome_witness :
  bmm_out tt unit_tensor batch2_mat2 (out_holding 7)
  = Aborted SelfMat2Batch (out_holding 7).
Proof.
  exact (bmm_out_rank3_outcome tt unit_tensor batch2_mat2 (out_holding 7)
           1 1 1 2 1 1 eq_refl eq_refl eq_refl).
Defined.

(** Property X9: a call that passes the validator with an inner dimension of
    [self] larger than that of [mat2] (which is not empty) has no defined
    outcome: the kernel takes the inner dimension from [self] and its last
    read is outside the storage of [mat2]. *)
Theorem bmm_out_inner_overrun ctx self mat2 out out1 b m n n' p ctype :
  sizes self = [b; m; n] → sizes mat2 = [b; n'; p] → tensor_ok mat2 →
  0 < b → 0 < m → 0 < p → 0 < n' < n →
  dim out = 3 → same_dtype3 self mat2 out →
  switch_case ET_FORALL_REAL_TYPES (scalar_type self) = Some ctype →
  resize_out_tensor self mat2 out = Returned out1 →
  check_bmm_out_args self mat2 out1 = Returned tt ∧
  bmm_out ctx self mat2 out = Undefined.
Proof.
  intros Hs Hm Hmat2 Hb Hmm Hp Hn Ho Hd Hsw Hr.
  destruct (bmm_out_valid ctx _ _ _ _ _ _ _ _ _ Hs Hm (Z.lt_le_incl _ _ Hb)
              Ho Hd Hr) as [Hs1 ->].
  destruct (tensor_ok_rank3 _ _ _ _ Hmat2 Hm) as (_ & Hly & _).
  split.
  - rewrite (check_bmm_out_args_rank3 _ _ _ _ _ _ _ _ _ _ _ _ Hs Hm Hs1).
    by rewrite decide_False, !decide_False by (try lia; by intros []).
  - rewrite Hsw. unfold bmm_kernel. rewrite decide_False.
    + destruct (size_rank3 _ _ _ _ Hs) as (-> & -> & ->).
      destruct (size_rank3 _ _ _ _ Hm) as (_ & _ & ->).
      cbn [mbind option_bind].
      rewrite (for_loop_fails _ _ _ _ (b - 1)); [done|lia|].
      intros t. apply (bmm_batch_step_overrun _ _ _ b); try lia.
      rewrite Hly. apply Z.mul_lt_mono_pos_r; [lia|].
      apply Z.mul_lt_mono_pos_l; lia.
    + rewrite (numel_rank3 _ _ _ _ Hs), (numel_rank3 _ _ _ _ Hm),
        (numel_rank3 _ _ _ _ Hs1).
      assert (0 < b * m * n) by (repeat apply Z.mul_pos_pos; lia).
      assert (0 < b * n' * p) by (repeat apply Z.mul_pos_pos; lia).
      assert (0 < b * m * p) by (repeat apply Z.mul_pos_pos; lia).
      lia.
Qed.

(** Property X9, on a 1x3 [self] and a 2x1 [mat2]. *)
Lemma bmm_out_inner_overrun_witness :
  check_bmm_out_args inner3_self inner2_mat2 (out_holding 0) = Returned tt ∧
  bmm_out tt inner3_self inner2_mat2 (out_holding 0) = Undefined.
Proof.
  apply (bmm_out_inner_overrun tt inner3_self inner2_mat2 (out_holding 0)
           (out_holding 0) 1 1 3 2 1 int32_t);
    try reflexivity; try compute_done; try lia.
Defined.

(** Property X10: a call on well-formed inputs whose inner dimension in [self] is
    positive and at most that of [mat2] returns, and entry [(i, r, c)] of
    the output is the sum over [k] below the inner dimension [n] of [self]
    of [self[i][r][k]] times the element of the storage of [mat2] at
    [(i * n + k) * p + c]: the kernel reads [mat2] as [n] rows per batch,
    whatever its own inner dimension is. *)
Theorem bmm_out_inner_short ctx self mat2 out out1 b m n n' p ctype :
  tensor_ok self → sizes self = [b; m; n] →
  tensor_ok mat2 → sizes mat2 = [b; n'; p] → 0 < n ≤ n' →
  dim out = 3 → same_dtype3 self mat2 out →
  switch_case ET_FORALL_REAL_TYPES (scalar_type self) = Some ctype →
  resize_out_tensor self mat2 out = Returned out1 → tensor_ok out1 →
  ∃ out2,
    bmm_out ctx self mat2 out = Returned out2 ∧
    sizes out2 = [b; m; p] ∧
    ∀ i r c, 0 ≤ i < b → 0 ≤ r < m → 0 ≤ c < p →
      entry out2 i r c =
      Some (sum_below ctype (Z.to_nat n)
              (λ k, c_mul ctype (elem self i r k)
                      (default (IntVal 0)
                         (load (data mat2) ((i * n + k) * p + c))))).
Proof.
  intros Hself Hs Hmat2 Hm Hn Ho Hd Hsw Hr Hout1.
  destruct (tensor_ok_rank3 _ _ _ _ Hself Hs) as ((Hb & Hmm & Hn') & Hlx & Hnx).
  destruct (tensor_ok_rank3 _ _ _ _ Hmat2 Hm) as ((_ & Hn2 & Hp) & Hly & Hny).
  destruct (bmm_out_valid ctx _ _ _ _ _ _ _ _ _ Hs Hm (proj1 Hb) Ho Hd Hr)
    as [Hs1 ->].
  destruct (tensor_ok_rank3 _ _ _ _ Hout1 Hs1) as (_ & Hlz & Hnz).
  destruct (size_rank3 _ _ _ _ Hm) as (_ & _ & Hp2).
  rewrite Hsw.
  destruct (decide (b * m * p = 0)) as [Hz|Hnz0].
  - exists out1. rewrite bmm_kernel_empty
      by (right; right; by rewrite (numel_rank3 _ _ _ _ Hs1)).
    split_and!; [done|done|].
    intros i r c Hi Hrr Hc. exfalso.
    assert (0 < b * m) by nia. nia.
  - assert (0 < b ∧ 0 < m ∧ 0 < p) as (? & ? & ?)
      by (apply product_pos; lia).
    eexists. split_and!.
    + rewrite (bmm_kernel_any _ self mat2 out1 b m n p (data out1) []);
        try done; try lia.
      * nia.
      * unfold int64_max in *. nia.
      * by rewrite app_nil_r.
      * rewrite (numel_rank3 _ _ _ _ Hs). nia.
      * rewrite (numel_rank3 _ _ _ _ Hm). nia.
      * by rewrite (numel_rank3 _ _ _ _ Hs1).
    + done.
    + intros i r c Hi Hrr Hc.
      rewrite (entry_rank3 _ b m p) by done. cbn [data with_data].
      rewrite app_nil_r, kernel_data_lookup by done.
      f_equal. unfold kernel_entry. apply sum_below_ext.
      intros k _. unfold elem. by rewrite (entry_rank3 _ _ _ _ _ _ _ Hs).
Qed.

(** Property X10, on two 1x1 matrices in [self] and two 2x1 matrices in
    [mat2]: the second batch reads the second element of the storage of
    [mat2], which belongs to the first matrix. *)
Lemma bmm_out_inner_short_witness :
  ∃ out2,
    bmm_out tt ones_self tall_mat2 (pair_out 0 0) = Returned out2 ∧
    sizes out2 = [2; 1; 1] ∧
    ∀ i r c, 0 ≤ i < 2 → 0 ≤ r < 1 → 0 ≤ c < 1 →
      entry out2 i r c =
      Some (sum_below int32_t (Z.to_nat 1)
              (λ k, c_mul int32_t (elem ones_self i r k)
                      (default (IntVal 0)
                         (load (data tall_mat2) ((i * 1 + k) * 1 + c))))).
Proof.
  apply (bmm_out_inner_short tt ones_self tall_mat2 (pair_out 0 0)
           (pair_out 0 0) 2 1 1 2 1 int32_t);
    try reflexivity; try compute_done; try lia.
Defined.

(** ** More on the resolver *)

Lemma size_lookup t (i : nat) : size t (Z.of_nat i) = sizes t !! i.
Proof. unfold size. by rewrite decide_True, Nat2Z.id by lia. Qed.

(** The loop of the resolver copies the sizes of [self] from [i] up to
    [m_dim] into the array. *)
Lemma copy_leading_sizes_copies self (k i : nat) fuel arr :
  (i + k ≤ length (sizes self))%nat → (i + k ≤ length arr)%nat →
  (k < fuel)%nat →
  copy_leading_sizes fuel self (Z.of_nat (i + k)) (Z.of_nat i) arr =
  Some (take i arr ++ (Some <$> take k (drop i (sizes self)))
          ++ drop (i + k) arr).
Proof.
  revert i fuel arr. induction k as [|k IH]; intros i fuel arr Hs Ha Hf.
  - rewrite Nat.add_0_r, take_0. cbn [fmap list_fmap app].
    rewrite take_drop.
    destruct fuel; cbn [copy_leading_sizes]; by rewrite decide_False by lia.
  - destruct fuel as [|fuel]; [lia|]. cbn [copy_leading_sizes].
    rewrite decide_True by lia. rewrite size_lookup.
    destruct (lookup_lt_is_Some_2 (sizes self) i) as [s Hsi]; [lia|].
    rewrite Hsi. cbn [mbind option_bind]. unfold array_set.
    rewrite decide_True, Nat2Z.id by lia. cbn [mbind option_bind].
    replace (Z.of_nat (i + S k)) with (Z.of_nat (S i + k)) by lia.
    replace (Z.of_nat i + 1) with (Z.of_nat (S i)) by lia.
    rewrite IH; [|lia|rewrite length_insert; lia|lia]. f_equal.
    rewrite (take_S_r _ _ (Some s))
      by (apply list_lookup_insert_eq; lia).
    rewrite take_insert_ge, drop_insert_lt by lia.
    rewrite (drop_S _ _ _ Hsi). cbn [take fmap list_fmap].
    rewrite <- (assoc_L (++)). cbn.
    by replace (i + S k)%nat with (S (i + k)) by lia.
Qed.

(** The resolver for [self] and [out] of one rank of at least 2: one
    request to resize [out] to the sizes of [self] with the last one
    replaced by the last size of [mat2]. *)
Lemma resize_out_tensor_rank self mat2 out (e : nat) last :
  length (sizes self) = S (S e) → (e ≤ 14)%nat →
  size mat2 (Z.of_nat (S e)) = Some last →
  length (sizes out) = S (S e) →
  resize_out_tensor self mat2 out =
  (let '(err, out') :=
     resize_tensor out (take (S e) (sizes self) ++ [last]) in
   ET_CHECK_MSG (bool_decide (err = Ok)) ResizeFailed out';;
   Returned out').
Proof.
  intros Hs He Hlast Ho. unfold resize_out_tensor, dim. rewrite Hs, Ho.
  replace (size_t_wrap (Z.of_nat (S (S e)) - 2)) with (Z.of_nat e)
    by (unfold size_t_wrap; rewrite Z.mod_small; lia).
  replace (size_t_wrap (Z.of_nat (S (S e)) - 1)) with (Z.of_nat (S e))
    by (unfold size_t_wrap; rewrite Z.mod_small; lia).
  change (Z.to_nat kTensorDimensionLimit) with 16%nat.
  pose proof (copy_leading_sizes_copies self e 0 17
                (replicate 16 None)) as Hcopy.
  change (0 + e)%nat with e in Hcopy. change (Z.of_nat 0) with 0 in Hcopy.
  rewrite Hcopy; [|lia|rewrite length_replicate; lia|lia]. clear Hcopy.
  rewrite take_0, drop_0. cbn [defined mbind Outcome_bind app].
  rewrite !size_lookup. rewrite size_lookup in Hlast.
  destruct (lookup_lt_is_Some_2 (sizes self) e) as [s Hse]; [lia|].
  rewrite Hse, Hlast. cbn [defined mbind Outcome_bind].
  rewrite drop_replicate.
  replace (16 - e)%nat with (S (S (14 - e))) by lia.
  set (pre := Some <$> take e (sizes self)).
  assert (length pre = e) as Hpre
    by (unfold pre; rewrite length_fmap, length_take; lia).
  unfold array_set.
  rewrite decide_True, Nat2Z.id
    by (rewrite length_app, Hpre; cbn; rewrite length_replicate; lia).
  cbn [defined mbind Outcome_bind].
  rewrite decide_True, Nat2Z.id
    by (rewrite length_insert, length_app, Hpre; cbn;
        rewrite length_replicate; lia).
  cbn [defined mbind Outcome_bind].
  rewrite !insert_app_r_alt by lia.
  rewrite Hpre, Nat.sub_diag.
  replace (S e - e)%nat with 1%nat by lia. cbn [replicate].
  change (<[1%nat:=Some last]>
            (<[0%nat:=Some s]> (None :: None :: replicate (14 - e) None)))
    with (Some s :: Some last :: replicate (14 - e) None).
  unfold array_ref.
  rewrite decide_True, Nat2Z.id
    by (rewrite length_app, Hpre; cbn; rewrite length_replicate; lia).
  rewrite take_app_ge by lia. rewrite Hpre.
  replace (S (S e) - e)%nat with 2%nat by lia. cbn [take]. rewrite take_0.
  replace (pre ++ [Some s; Some last])
    with (Some <$> (take (S e) (sizes self) ++ [last])).
  - rewrite mapM_fmap_Some by done. done.
  - rewrite (take_S_r _ _ _ Hse), !fmap_app, <- (assoc_L (++)). done.
Qed.

(** Property X11: for [self] and [out] of one rank [d] from 2 to the dimension
    limit, the resolver requests the sizes of [self] with the last one
    replaced by the size of [mat2] in dimension [d - 1]: the leading
    (batch) sizes and the rows of [self], the columns of [mat2].  It
    leaves an [out] of that shape as it is, else [out] takes that shape or
    the call fails with [ResizeFailed]. *)
Theorem resize_out_tensor_any_rank self mat2 out (e : nat) last :
  length (sizes self) = S (S e) → (e ≤ 14)%nat →
  sizes mat2 !! S e = Some last →
  length (sizes out) = S (S e) →
  resize_out_tensor self mat2 out =
  (if decide (sizes out = take (S e) (sizes self) ++ [last])
   then Returned out
   else match resize_storage out (take (S e) (sizes self) ++ [last]) with
        | Some buf =>
            Returned (mkTensor (scalar_type out)
                        (take (S e) (sizes self) ++ [last]) buf
                        (resize_storage out))
        | None => Aborted ResizeFailed out
        end).
Proof.
  intros Hs He Hlast Ho. rewrite <- size_lookup in Hlast.
  rewrite (resize_out_tensor_rank _ _ _ _ _ Hs He Hlast Ho).
  unfold resize_tensor. case_decide; [done|].
  by destruct (resize_storage out _).
Qed.

(** Property X11, on tensors of rank 4. *)
Lemma resize_out_tensor_any_rank_witness :
  resize_out_tensor rank4_tensor rank4_tensor rank4_out
  = Returned rank4_resized.
Proof.
  exact (resize_out_tensor_any_rank rank4_tensor rank4_tensor rank4_out
           2 1 eq_refl ltac:(lia) eq_refl eq_refl).
Defined.

(** Property X12: on tensors of one rank other than 3 (from 2 to the dimension
    limit) the call resizes [out] before it rejects the rank: it ends with
    [SelfDimNot3] and [out] resized, or with [ResizeFailed]. *)
Theorem bmm_out_resizes_before_rank_check
    ctx self mat2 out (e : nat) last :
  length (sizes self) = S (S e) → length (sizes mat2) = S (S e) →
  length (sizes out) = S (S e) → (e ≤ 14)%nat → e ≠ 1%nat →
  sizes mat2 !! S e = Some last →
  bmm_out ctx self mat2 out =
  match resize_tensor out (take (S e) (sizes self) ++ [last]) with
  | (Ok, out1) => Aborted SelfDimNot3 out1
  | (ResizeError, _) => Aborted ResizeFailed out
  end.
Proof.
  intros Hs Hm Ho He Hne Hlast. rewrite <- size_lookup in Hlast.
  pose proof (resize_out_tensor_rank _ _ _ _ _ Hs He Hlast Ho) as Hres.
  assert (∀ out1, length (sizes out1) = S (S e) →
            check_bmm_out_args self mat2 out1 = Aborted SelfDimNot3 out1)
    as Hcheck.
  { intros out1 Ho1.
    destruct (check_bmm_out_args_rank self mat2 out1) as (c & Hc & Hw).
    { unfold dim. rewrite Hs. intros [H3 _]. lia. }
    destruct Hw as [[_ Hd]|[[_ Hd]|[-> _]]]; [| |done];
      exfalso; apply Hd; unfold dim; by rewrite Hs, ?Hm, ?Ho1. }
  destruct (resize_tensor_cases out (take (S e) (sizes self) ++ [last]))
    as [[Heq Hc]|[(_ & _ & Hc)|(Hne' & buf & Hbuf & Hc)]];
    rewrite Hc in Hres |- *; cbn in Hres.
  - rewrite (bmm_out_resolved _ _ _ _ _ Hres), Hcheck; done.
  - unfold bmm_out. by rewrite Hres.
  - rewrite (bmm_out_resolved _ _ _ _ _ Hres), Hcheck; [done|].
    cbn [sizes]. rewrite length_app, length_take, Hs. cbn [length]. lia.
Qed.

(** Property X12, on tensors of rank 4. *)
Lemma bmm_out_resizes_before_rank_check_witness :
  bmm_out tt rank4_tensor rank4_tensor rank4_out
  = Aborted SelfDimNot3 rank4_resized.
Proof.
  exact (bmm_out_resizes_before_rank_check tt rank4_tensor rank4_tensor
           rank4_out 2 1 eq_refl eq_refl eq_refl ltac:(lia) ltac:(lia)
           eq_refl).
Defined.



(** ** The resolver on tensors of low rank *)

(** With an accessor that has no defined behaviour outside the dimensions,
    these are the resolver and the operator defined before. *)
Lemma size_at_undefined t d :
  size_at size_oob_undefined t d = defined (size t d).
Proof. unfold size_at. by destruct (size t d). Qed.

Lemma copy_leading_sizes_at_undefined fuel self m_dim i arr :
  copy_leading_sizes_at size_oob_undefined fuel self m_dim i arr
  = defined (copy_leading_sizes fuel self m_dim i arr).
Proof.
  revert i arr. induction fuel as [|fuel IH]; intros i arr;
    cbn [copy_leading_sizes_at copy_leading_sizes]; case_decide; try done.
  rewrite size_at_undefined. destruct (size self i) as [v|]; [|done].
  cbn [defined mbind Outcome_bind option_bind].
  destruct (array_set arr i v) as [arr'|]; [|done].
  cbn [defined mbind Outcome_bind option_bind]. apply IH.
Qed.

Lemma resize_out_tensor_at_undefined self mat2 out :
  resize_out_tensor_at size_oob_undefined self mat2 out
  = resize_out_tensor self mat2 out.
Proof.
  unfold resize_out_tensor_at, resize_out_tensor.
  by rewrite copy_leading_sizes_at_undefined, !size_at_undefined.
Qed.

Lemma bmm_out_at_undefined ctx self mat2 out :
  bmm_out_at size_oob_undefined ctx self mat2 out = bmm_out ctx self mat2 out.
Proof. unfold bmm_out_at, bmm_out. by rewrite resize_out_tensor_at_undefined. Qed.

Section SizeOutOfRangeFacts.
Variable size_oob : Tensor → Z → Outcome Z.

(** The loop needs no more fuel than the array has slots, plus one: the
    iteration at the end of the array does not come back. *)
Lemma copy_leading_sizes_at_fuel fuel fuel' self m_dim i arr :
  0 ≤ i → Z.of_nat (length arr) < i + Z.of_nat fuel → (0 < fuel ≤ fuel')%nat →
  copy_leading_sizes_at size_oob fuel self m_dim i arr =
  copy_leading_sizes_at size_oob fuel' self m_dim i arr.
Proof.
  revert fuel' i arr. induction fuel as [|fuel IH]; intros fuel' i arr Hi Hf Hle;
    [lia|].
  destruct fuel' as [|fuel']; [lia|]. cbn [copy_leading_sizes_at].
  case_decide; [|done]. destruct (size_at size_oob self i) as [v| |]; try done.
  cbn [mbind Outcome_bind]. unfold array_set. case_decide; [|done].
  cbn [defined mbind Outcome_bind]. apply IH; [lia|..];
    rewrite ?length_insert; lia.
Qed.

Lemma copy_leading_sizes_at_step fuel self m_dim i arr :
  i < m_dim →
  copy_leading_sizes_at size_oob (S fuel) self m_dim i arr =
  (v ← size_at size_oob self i;
   arr' ← defined (array_set arr i v);
   copy_leading_sizes_at size_oob fuel self m_dim (i + 1) arr').
Proof. intros Hi. cbn [copy_leading_sizes_at]. by rewrite decide_True. Qed.

(** A copy loop whose bound lies beyond the array, from an index outside
    the dimensions of [self] on: every size it reads is outside the
    dimensions, and the iteration at the end of the array writes beyond
    it. *)
Lemma copy_leading_sizes_at_overrun fuel self m_dim i arr :
  0 ≤ i → dim self ≤ i → i ≤ Z.of_nat (length arr) →
  Z.of_nat (length arr) < m_dim →
  copy_leading_sizes_at size_oob fuel self m_dim i arr = Undefined ∨
  ∃ d c t, i ≤ d ≤ Z.of_nat (length arr) ∧ size_oob self d = Aborted c t ∧
    copy_leading_sizes_at size_oob fuel self m_dim i arr = Aborted c t.
Proof.
  revert i arr. induction fuel as [|fuel IH]; intros i arr Hi Hd Hlen Hm;
    cbn [copy_leading_sizes_at]; rewrite decide_True by lia; [by left|].
  assert (size self i = None) as Hs.
  { unfold size. rewrite decide_True by done.
    apply lookup_ge_None. unfold dim in Hd. lia. }
  unfold size_at. rewrite Hs.
  destruct (size_oob self i) as [v|c t|] eqn:Hoob; cbn [mbind Outcome_bind].
  - unfold array_set. case_decide as Hin; [|by left].
    cbn [defined mbind Outcome_bind].
    destruct (IH (i + 1) (<[Z.to_nat i:=Some v]> arr))
      as [H|(d & c & t & Hd' & Ho & H)];
      rewrite ?length_insert; try lia; [by left|].
    right. exists d, c, t. rewrite length_insert in Hd'.
    split_and!; try done; lia.
  - right. exists i, c, t. split_and!; try done; lia.
  - by left.
Qed.

End SizeOutOfRangeFacts.

(** Property X14: for [self] of rank below 2, [self.dim() - 2] wraps
    around as a [size_t], so the copy loop of the resolver does not end
    before it has asked for a size outside the dimensions of [self]; and
    if the accessor returns there, the loop goes on to write beyond
    [expected_output_size].  Whatever the accessor does outside the
    dimensions, the call does not return and none of the operator's checks
    is reached: it has no defined outcome, or it ends where the accessor
    ends it. *)
Theorem bmm_out_rank_below_2
    (size_oob : Tensor → Z → Outcome Z) ctx self mat2 out :
  dim self < 2 →
  bmm_out_at size_oob ctx self mat2 out = Undefined ∨
  ∃ d c t, dim self ≤ d ≤ kTensorDimensionLimit ∧
    size_oob self d = Aborted c t ∧
    bmm_out_at size_oob ctx self mat2 out = Aborted c t.
Proof.
  intros Hd.
  assert (resize_out_tensor_at size_oob self mat2 out = Undefined ∨
          ∃ d c t, dim self ≤ d ≤ kTensorDimensionLimit ∧
            size_oob self d = Aborted c t ∧
            resize_out_tensor_at size_oob self mat2 out = Aborted c t) as Hr.
  { unfold resize_out_tensor_at.
    change (Z.to_nat kTensorDimensionLimit) with 16%nat.
    unfold dim in *.
    destruct (sizes self) as [|a [|a' l]] eqn:Hs; [| |cbn in Hd; lia].
    - change (size_t_wrap (Z.of_nat (length []) - 2))
        with 18446744073709551614.
      destruct (copy_leading_sizes_at_overrun size_oob 17 self 18446744073709551614
                  0 (replicate 16 None))
        as [H|(d & c & t & Hd' & Ho & H)];
        rewrite ?length_replicate; unfold dim; rewrite ?Hs; cbn [length];
        try lia; rewrite H; [by left|].
      right. exists d, c, t. rewrite length_replicate in Hd'.
      unfold kTensorDimensionLimit. cbn [length] in *.
      split_and!; try done; lia.
    - change (size_t_wrap (Z.of_nat (length [a]) - 2))
        with 18446744073709551615.
      rewrite (copy_leading_sizes_at_step size_oob 16) by lia.
      assert (size_at size_oob self 0 = Returned a) as ->
        by (unfold size_at, size; by rewrite Hs, decide_True by lia).
      cbn [mbind Outcome_bind].
      assert (array_set (replicate 16 None) 0 a
              = Some (Some a :: replicate 15 None)) as ->
        by (unfold array_set; by rewrite decide_True by (cbn; lia)).
      cbn [defined mbind Outcome_bind].
      destruct (copy_leading_sizes_at_overrun size_oob 16 self 18446744073709551615
                  (0 + 1) (Some a :: replicate 15 None))
        as [H|(d & c & t & Hd' & Ho & H)];
        cbn [length]; rewrite ?length_replicate; unfold dim; rewrite ?Hs;
        cbn [length]; try lia; rewrite H; [by left|].
      right. exists d, c, t. cbn [length] in Hd'.
      rewrite length_replicate in Hd'.
      unfold kTensorDimensionLimit. cbn [length] in *.
      split_and!; try done; lia. }
  unfold bmm_out_at.
  destruct Hr as [->|(d & c & t & Hd' & Ho & ->)]; [by left|].
  right. by exists d, c, t.
Qed.

(** Property X14, on a [self] of rank 1 and an accessor that returns 0
    outside the dimensions: the loop writes beyond the array. *)
Lemma bmm_out_rank_below_2_witness :
  bmm_out_at size_oob_zero tt rank1_tensor rank1_tensor rank1_tensor
  = Undefined.
Proof.
  destruct (bmm_out_rank_below_2 size_oob_zero tt rank1_tensor rank1_tensor
              rank1_tensor) as [H|(d & c & t & _ & Ho & _)];
    [compute_done|exact H|discriminate Ho].
Defined.

(** Property X15: whatever the ranks, what the resolver returns has the rank, the
    element type and the resize capability of [out]; and when its shape
    is that of [out], it is [out] itself, storage included. *)
Theorem resize_out_tensor_keeps_rank self mat2 out out1 :
  resize_out_tensor self mat2 out = Returned out1 →
  dim out1 = dim out ∧
  scalar_type out1 = scalar_type out ∧
  resize_storage out1 = resize_storage out ∧
  (sizes out1 = sizes out → out1 = out).
Proof.
  intros Hr.
  destruct (resize_out_tensor_returned _ _ _ _ Hr) as (Hdim & Hst & _).
  destruct (resize_out_tensor_capability _ _ _ _ Hr) as [Hcap Hsame].
  done.
Qed.

(** Property X15, on the resizable output of rank 2. *)
Lemma resize_out_tensor_keeps_rank_witness :
  dim rank2_resized = dim rank2_out ∧
  scalar_type rank2_resized = scalar_type rank2_out ∧
  resize_storage rank2_resized = resize_storage rank2_out ∧
  (sizes rank2_resized = sizes rank2_out → rank2_resized = rank2_out).
Proof.
  apply (resize_out_tensor_keeps_rank unit_tensor unit_tensor).
  reflexivity.
Defined.
